(** * Shallow embedding of [charms.operator_libs_linux.v0.snap]

    The module drives two external collaborators: the [snap] command line
    tool (through [subprocess.check_output]) and the snapd daemon (through
    an HTTP-over-Unix-socket client).  Both are modelled as an environment
    whose answers may depend on everything that happened before; every
    interaction is appended to a chronological trace, so that statements
    such as "no external command runs" are statements about that trace.

    Not modelled: the calls to [logger], the [OSError]s of a missing
    executable or an unreadable file, and daemon answers whose body is not
    the JSON envelope with a list of objects under "result".  Strings are
    ASCII. *)

From stdpp Require Import gmap strings list fin_maps.
From Stdlib Require Import ZArith Ascii String.

Open Scope string_scope.
Open Scope Z_scope.

(** ** Python values, exceptions *)

(** The fragment of Python values that reaches exception arguments and the
    positional parameters of [install_local]. *)
#[warnings="-register-all"]
Inductive pyval : Type :=
| PyNone
| PyBool (b : bool)
| PyStr (s : string)
| PyList (l : list pyval).

(** Python truthiness, as used by [x if c else y]. *)
Definition truthy (v : pyval) : bool :=
  match v with
  | PyNone => false
  | PyBool b => b
  | PyStr s => negb (String.eqb s EmptyString)
  | PyList l => match l with [] => false | _ => true end
  end.

(** [class SnapState(Enum)] *)
Inductive SnapState : Type := Present | Absent | Latest | Available.

#[global] Instance SnapState_eq_dec : EqDecision SnapState.
Proof. solve_decision. Defined.

(** Identity comparison [a is b] of two enum members. *)
Definition state_is (a b : SnapState) : bool := bool_decide (a = b).

(** [SnapState(value)]: look an enum member up by value. *)
Definition SnapState_of_value (v : string) : option SnapState :=
  if String.eqb v "present" then Some Present
  else if String.eqb v "absent" then Some Absent
  else if String.eqb v "latest" then Some Latest
  else if String.eqb v "available" then Some Available
  else None.

(** The exceptions the module raises or lets through.  [SnapError],
    [SnapNotFoundError] and [SnapAPIError] derive from [Error]; the others
    are Python built-ins. *)
Inductive exn : Type :=
| SnapError (args : list pyval)
| SnapNotFoundError (args : list pyval)
| SnapAPIError (body : gmap string string) (code : Z) (status message : string)
| TypeError (msg : string)
| IndexError (msg : string)
| KeyError (key : string)
| ValueError (msg : string).

(** [BaseException.args] for the [Error] subclasses.  [SnapAPIError.__init__]
    calls [super().__init__(message)]. *)
Definition Error_args (e : exn) : option (list pyval) :=
  match e with
  | SnapError args => Some args
  | SnapNotFoundError args => Some args
  | SnapAPIError _ _ _ message => Some [PyStr message]
  | _ => None
  end.

(** [Error.message]: [return self.args[0]].  [None] stands for the
    attribute or index being missing. *)
Definition message (e : exn) : option pyval :=
  match Error_args e with
  | Some args => args !! 0%nat
  | None => None
  end.

(** ** The environment and its trace *)

Inductive event : Type :=
| IsFile (path : string)                       (* os.path.isfile(path) *)
| ReadLines (path : string)                    (* open(path) and iterate *)
| Request (method path : string) (query : list (string * string))
                                                (* opener.open(request) *)
| CheckOutput (cmd : list string).             (* subprocess.check_output *)

(** A command either exits zero with its output, or check_output raises
    [CalledProcessError] whose [output] is what was captured. *)
Inductive proc_outcome : Type :=
| Exit0 (out : string)
| CalledProcessError (output : string).

(** What [opener.open] together with the JSON decoding of the body can do:
    a 2xx answer whose envelope carries a list of objects under "result",
    an [HTTPError] whose body decodes ([inl]) or not ([inr], with the text
    of the decoding failure), or a [URLError]. *)
Inductive http_outcome : Type :=
| Response (result : list (gmap string string))
| HTTPError (code : Z) (reason : string) (body : gmap string string + string)
| URLError (reason : string).

Record Env : Type := {
  isfile : list event -> string -> bool;
  file_lines : list event -> string -> list string;
  urlopen : list event -> string -> string -> list (string * string) -> http_outcome;
  check_output : list event -> list string -> proc_outcome
}.

(** ** A state and exception monad *)

Inductive res (A : Type) : Type :=
| Ret (a : A)
| Raise (e : exn).
Arguments Ret {A} a.
Arguments Raise {A} e.

Definition M (St A : Type) : Type := St -> res A * St.

Definition ret {St A} (a : A) : M St A := fun s => (Ret a, s).
Definition raise {St A} (e : exn) : M St A := fun s => (Raise e, s).
Definition bind {St A B} (m : M St A) (k : A -> M St B) : M St B :=
  fun s => match m s with
           | (Ret a, s') => k a s'
           | (Raise e, s') => (Raise e, s')
           end.
(** [try: m  except <handled>: h e] *)
Definition try_except {St A} (m : M St A) (h : exn -> option (M St A)) : M St A :=
  fun s => match m s with
           | (Ret a, s') => (Ret a, s')
           | (Raise e, s') =>
               match h e with
               | Some k => k s'
               | None => (Raise e, s')
               end
           end.
Definition gets {St A} (f : St -> A) : M St A := fun s => (Ret (f s), s).
Definition modify {St} (f : St -> St) : M St unit := fun s => (Ret tt, f s).

Declare Scope py_scope.
Delimit Scope py_scope with py.
Notation "x <- m ;; k" := (bind m (fun x => k))
  (at level 100, m at next level, right associativity) : py_scope.
Notation "m ;;; k" := (bind m (fun _ => k))
  (at level 100, right associativity) : py_scope.
Open Scope py_scope.

(** ** [class Snap] *)

Record Snap : Type := mkSnap {
  _name : string;
  _state : SnapState;
  _channel : string;
  _revision : string;
  _confinement : string
}.

Definition with_state (st : SnapState) (s : Snap) : Snap :=
  mkSnap (_name s) st (_channel s) (_revision s) (_confinement s).
Definition with_confinement (c : string) (s : Snap) : Snap :=
  mkSnap (_name s) (_state s) (_channel s) (_revision s) c.

(** A method runs on its object [self] and on the trace of the
    interactions with the environment so far. *)
Record St (O : Type) : Type := mkSt { self : O; trace : list event }.
Arguments mkSt {O} self trace.
Arguments self {O} s.
Arguments trace {O} s.

Abbreviation SnapSt := (St Snap).

Definition dquote : string := String (ascii_of_nat 34) EmptyString.

Module Snap.
Section WithEnv.
Variable env : Env.

(** [Snap._snap] *)
Definition _snap (command : string) (optargs : option (list string))
  : M SnapSt string :=
  fun st =>
    let optargs := match optargs with Some l => l | None => [] end in
    let _cmd := "snap" :: command :: _name (self st) :: optargs in
    let st' := mkSt (self st) (trace st ++ [CheckOutput _cmd]) in
    match check_output env (trace st) _cmd with
    | Exit0 out => (Ret out, st')
    | CalledProcessError output =>
        (Raise (SnapError [PyStr "Could not %s snap [%s]: %s";
                           PyList (PyStr <$> _cmd);
                           PyStr (_name (self st));
                           PyStr output]), st')
    end.

(** [Snap.get], [Snap.set], [Snap.unset] *)
Definition get (key : string) : M SnapSt string := _snap "get" (Some [key]).
Definition set (key value : string) : M SnapSt string :=
  _snap "set" (Some [key; value]).
Definition unset (key : string) : M SnapSt string := _snap "unset" (Some [key]).

(** [Snap._install] *)
Definition _install (channel : string) : M SnapSt unit :=
  s <- gets self ;;
  let confinement :=
    if String.eqb (_confinement s) "classic" then "--classic" else EmptyString in
  let channel :=
    if negb (String.eqb channel EmptyString)
    then "--channel=" ++ dquote ++ channel ++ dquote
    else EmptyString in
  _snap "install" (Some [confinement; channel]) ;;;
  ret tt.

(** [Snap._refresh] *)
Definition _refresh (channel : string) : M SnapSt unit :=
  s <- gets self ;;
  let channel :=
    if negb (String.eqb channel EmptyString) then "--" ++ channel
    else _channel s in
  _snap "refresh" (Some [channel]) ;;;
  ret tt.

(** [Snap._remove] *)
Definition _remove : M SnapSt string := _snap "remove" None.

(** [Snap.ensure].  The first statement rewrites [self._confinement]; only
    then is the current state compared with the requested one. *)
Definition ensure (state : SnapState) (classic : bool) (channel : string)
  : M SnapSt unit :=
  modify (fun st =>
    mkSt
      (with_confinement
         (if classic || String.eqb (_confinement (self st)) "classic"
          then "classic" else EmptyString)
         (self st))
      (trace st)) ;;;
  s <- gets self ;;
  if negb (state_is (_state s) state) then
    (if negb (state_is state Present || state_is state Latest)
     then (_remove ;;; ret tt)
     else _install channel) ;;;
    modify (fun st => mkSt (with_state state (self st)) (trace st))
  else ret tt.

(** The properties [present], [latest], and the [state] setter. *)
Definition present (s : Snap) : bool :=
  state_is (_state s) Present || state_is (_state s) Latest.
Definition latest (s : Snap) : bool := state_is (_state s) Latest.
Definition state_setter (state : SnapState) : M SnapSt unit :=
  s <- gets self ;;
  (if negb (state_is (_state s) state)
   then ensure state false EmptyString else ret tt) ;;;
  modify (fun st => mkSt (with_state state (self st)) (trace st)).

End WithEnv.

(** [Snap.__eq__]: [other] is an instance of [Snap] ([inl]) or any other
    value ([inr]); instances compare by name and revision. *)
Definition __eq__ (self_ : Snap) (other : Snap + pyval) : bool :=
  match other with
  | inl o =>
      String.eqb (_name self_) (_name o)
      && String.eqb (_revision self_) (_revision o)
  | inr _ => false
  end.

(** [Snap.__hash__]: the hash of the pair of name and revision, for
    whatever [hash] the runtime uses on tuples. *)
Definition __hash__ (hash : string * string -> Z) (self_ : Snap) : Z :=
  hash (_name self_, _revision self_).

End Snap.

(** ** String helpers of the Python runtime (ASCII fragment) *)

(** [str.isspace] on one ASCII character. *)
Definition py_isspace (c : ascii) : bool :=
  let n := nat_of_ascii c in
  ((9 <=? n) && (n <=? 13) || (28 <=? n) && (n <=? 32))%nat.

Fixpoint lstrip (s : string) : string :=
  match s with
  | EmptyString => EmptyString
  | String c s' => if py_isspace c then lstrip s' else s
  end.

Definition string_rev (s : string) : string :=
  string_of_list_ascii (List.rev (list_ascii_of_string s)).

(** [str.strip()] *)
Definition strip (s : string) : string :=
  string_rev (lstrip (string_rev (lstrip s))).

(** The line boundaries [str.splitlines] knows in ASCII. *)
Definition py_islinebreak (c : ascii) : bool :=
  let n := nat_of_ascii c in
  ((10 <=? n) && (n <=? 13) || (28 <=? n) && (n <=? 30))%nat.

Fixpoint upto_linebreak (s : string) : string :=
  match s with
  | EmptyString => EmptyString
  | String c s' =>
      if py_islinebreak c then EmptyString else String c (upto_linebreak s')
  end.

(** [s.splitlines()[0]]: [None] when [splitlines] returns the empty list. *)
Definition first_line (s : string) : option string :=
  match s with
  | EmptyString => None
  | _ => Some (upto_linebreak s)
  end.

(** [s.split(" ", 1)]: one piece, or the text before the first blank and
    the text after it. *)
Fixpoint split_space_1 (s : string) : string * option string :=
  match s with
  | EmptyString => (EmptyString, None)
  | String c s' =>
      if Ascii.eqb c " "%char then (EmptyString, Some s')
      else let '(a, b) := split_space_1 s' in (String c a, b)
  end.

(** [", ".join(l)] *)
Fixpoint join (sep : string) (l : list string) : string :=
  match l with
  | [] => EmptyString
  | [x] => x
  | x :: l' => x ++ sep ++ join sep l'
  end.

(** ** Monad plumbing shared by the classes *)

(** [d[k]] on a decoded JSON object. *)
Definition dict_getitem {O} (d : gmap string string) (k : string) : M (St O) string :=
  match d !! k with
  | Some v => ret v
  | None => raise (KeyError k)
  end.

(** [for x in l: body x] *)
Fixpoint for_each {S A} (l : list A) (body : A -> M S unit) : M S unit :=
  match l with
  | [] => ret tt
  | x :: l' => body x ;;; for_each l' body
  end.

(** Run a computation that only touches the trace, whatever the object. *)
Definition on_trace {O A} (m : list event -> res A * list event) : M (St O) A :=
  fun st => let '(r, tr) := m (trace st) in (r, mkSt (self st) tr).

Definition set_self {O} (f : O -> O) : M (St O) unit :=
  modify (fun st => mkSt (f (self st)) (trace st)).

(** [os.path.isfile] *)
Definition os_path_isfile (env : Env) {O} (path : string) : M (St O) bool :=
  on_trace (fun tr => (Ret (isfile env tr path), (tr ++ [IsFile path])%list)).

(** ** [class SnapClient] *)

Module SnapClient.
Section WithEnv.
Variable env : Env.

(** [SnapClient._request] over [_request_raw], for the two GET requests
    the module issues (no request body).  The decoded ["result"] of a 2xx
    answer is returned; the two [except] clauses of [_request_raw] build
    the [SnapAPIError]. *)
Definition _request {O} (method path : string) (query : list (string * string))
  : M (St O) (list (gmap string string)) :=
  on_trace (fun tr =>
    let tr' := (tr ++ [Request method path query])%list in
    match urlopen env tr method path query with
    | Response result => (Ret result, tr')
    | HTTPError code reason (inl body) =>
        (Raise (SnapAPIError body code reason EmptyString), tr')
    | HTTPError code reason (inr descr) =>
        (Raise (SnapAPIError ∅ code reason descr), tr')
    | URLError reason =>
        (Raise (SnapAPIError ∅ 500 "Not found" reason), tr')
    end).

(** [SnapClient.get_installed_snaps] *)
Definition get_installed_snaps {O} : M (St O) (list (gmap string string)) :=
  _request "GET" "snaps" [].

(** [SnapClient.get_snap_information]: [self._request(...)[0]] *)
Definition get_snap_information {O} (name : string)
  : M (St O) (gmap string string) :=
  result <- _request "GET" "find" [("name", name)] ;;
  match result with
  | info :: _ => ret info
  | [] => raise (IndexError "list index out of range")
  end.

End WithEnv.
End SnapClient.

(** Call a method [m] on an object held in an attribute of [self] (read
    with [get], written back with [put]): the callee mutates that object
    in place, so whatever it did to it is visible in [self] afterwards,
    also when it raises. *)
Definition on_field {O P A} (get : O -> option P) (put : P -> O -> O)
    (missing : exn) (m : M (St P) A) : M (St O) A :=
  fun st =>
    match get (self st) with
    | None => (Raise missing, st)
    | Some o =>
        let '(r, st') := m (mkSt o (trace st)) in
        (r, mkSt (put (self st') (self st)) (trace st'))
    end.

(** ** [class SnapCache]

    [_snap_map] maps a name to [None] (known from the index file, not
    loaded) or to a [Snap].  Every [Snap] in the map is created by the
    cache itself and stored under exactly one key, so the key serves as the
    reference to the object: [__getitem__] returns the key, and a method
    called through that reference updates the entry in place. *)
Record SnapCache : Type := mkSnapCache { _snap_map : gmap string (option Snap) }.

Module SnapCache.
Section WithEnv.
Variable env : Env.

(** The property [snapd_installed]. *)
Definition snapd_installed : M (St SnapCache) bool :=
  os_path_isfile env "/usr/bin/snap".

(** [self._snap_map[k] = v] *)
Definition setitem (k : string) (v : option Snap) : M (St SnapCache) unit :=
  set_self (fun c => mkSnapCache (<[k := v]> (_snap_map c))).

(** [SnapCache._load_available_snaps] *)
Definition _load_available_snaps : M (St SnapCache) unit :=
  b <- os_path_isfile env "/var/cache/snapd/names" ;;
  if negb b then ret tt
  else
    f <- on_trace (fun tr =>
           (Ret (file_lines env tr "/var/cache/snapd/names"),
            (tr ++ [ReadLines "/var/cache/snapd/names"])%list)) ;;
    for_each f (fun line =>
      if negb (String.eqb (strip line) EmptyString)
      then setitem (strip line) None
      else ret tt).

(** [SnapCache._load_installed_snaps] *)
Definition _load_installed_snaps : M (St SnapCache) unit :=
  installed <- SnapClient.get_installed_snaps env ;;
  for_each installed (fun i =>
    name <- dict_getitem i "name" ;;
    channel <- dict_getitem i "channel" ;;
    revision <- dict_getitem i "revision" ;;
    confinement <- dict_getitem i "confinement" ;;
    let snap := mkSnap name Latest channel revision confinement in
    setitem (_name snap) (Some snap)).

(** [SnapCache._load_info] *)
Definition _load_info (name : string) : M (St SnapCache) Snap :=
  info <- SnapClient.get_snap_information env name ;;
  name' <- dict_getitem info "name" ;;
  channel <- dict_getitem info "channel" ;;
  revision <- dict_getitem info "revision" ;;
  confinement <- dict_getitem info "confinement" ;;
  ret (mkSnap name' Available channel revision confinement).

(** [SnapCache.__init__] *)
Definition __init__ : M (St SnapCache) unit :=
  b <- snapd_installed ;;
  if negb b
  then raise (SnapError [PyStr "snapd is not installed or not in /usr/bin"])
  else
    set_self (fun _ => mkSnapCache ∅) ;;;
    b' <- snapd_installed ;;
    if b' then (_load_available_snaps ;;; _load_installed_snaps) else ret tt.

(** The expression [SnapCache()], from any context. *)
Definition new {O} : M (St O) SnapCache :=
  fun st =>
    let '(r, st') := __init__ (mkSt (mkSnapCache ∅) (trace st)) in
    match r with
    | Ret _ => (Ret (self st'), mkSt (self st) (trace st'))
    | Raise e => (Raise e, mkSt (self st) (trace st'))
    end.

(** [SnapCache.__getitem__]; the result is the reference (the key) of
    the [Snap] that [self._snap_map[snap_name]] holds. *)
Definition __getitem__ (snap_name : string) : M (St SnapCache) string :=
  c <- gets self ;;
  let snap := match _snap_map c !! snap_name with
              | Some v => v
              | None => None           (* except KeyError: log *)
              end in
  (match snap with
   | None =>
       try_except
         (s <- _load_info snap_name ;; setitem snap_name (Some s))
         (fun e =>
            match e with
            | SnapAPIError _ _ _ _ =>
                Some (raise (SnapNotFoundError
                               [PyStr ("Snap '" ++ snap_name ++ "' not found!")]))
            | _ => None
            end)
   | Some _ => ret tt
   end) ;;;
  ret snap_name.

(** Dereference: the object behind a reference. *)
Definition deref (c : SnapCache) (ref : string) : option Snap :=
  match _snap_map c !! ref with
  | Some (Some s) => Some s
  | _ => None
  end.

(** Call a [Snap] method through a reference into the cache. *)
Definition on_snap {A} (ref : string) (m : M SnapSt A) : M (St SnapCache) A :=
  on_field (fun c => deref c ref)
           (fun s c => mkSnapCache (<[ref := Some s]> (_snap_map c)))
           (KeyError ref) m.

End WithEnv.

(** [SnapCache.__contains__]: [key in self._snap_map]; a placeholder is a
    key like any other. *)
Definition __contains__ (c : SnapCache) (key : string) : bool :=
  bool_decide (is_Some (_snap_map c !! key)).

(** [SnapCache.__len__] *)
Definition __len__ (c : SnapCache) : nat := size (_snap_map c).

End SnapCache.

(** ** Module level: the process-wide cache and the bare functions *)

(** [class _Cache] with its class attribute [_cache]. *)
Record _Cache : Type := mk_Cache { _cache : option SnapCache }.

(** What [_wrap_snap_operations] returns: one [Snap] or a list of them,
    as references into the process-wide cache. *)
Inductive snaps_result : Type :=
| OneSnap (ref : string)
| SnapList (refs : list string).

Definition pytype_name (v : pyval) : string :=
  match v with
  | PyNone => "NoneType"
  | PyBool _ => "bool"
  | PyStr _ => "str"
  | PyList _ => "list"
  end.

(** The argument vector of a command: every element has to be a string;
    otherwise the first offending element is returned. *)
Fixpoint argv_of (cmd : list pyval) : pyval + list string :=
  match cmd with
  | [] => inr []
  | PyStr s :: cmd' =>
      match argv_of cmd' with
      | inr l => inr (s :: l)
      | inl v => inl v
      end
  | v :: _ => inl v
  end.

Section WithEnv.
Variable env : Env.

(** [subprocess.check_output(cmd, universal_newlines=True)] on a list of
    Python values: the conversion of the arguments fails with [TypeError]
    before any process is started. *)
Definition subprocess_check_output {O} (cmd : list pyval)
  : M (St O) proc_outcome :=
  match argv_of cmd with
  | inl v =>
      raise (TypeError ("expected str, bytes or os.PathLike object, not "
                          ++ pytype_name v))
  | inr argv =>
      on_trace (fun tr =>
        (Ret (check_output env tr argv), (tr ++ [CheckOutput argv])%list))
  end.

(** The decorator [_cache_init]. *)
Definition _cache_init {A} (func : M (St _Cache) A) : M (St _Cache) A :=
  g <- gets self ;;
  (match _cache g with
   | None =>
       c <- SnapCache.new env ;;
       set_self (fun _ => mk_Cache (Some c))
   | Some _ => ret tt
   end) ;;;
  func.

(** Call a method of the process-wide cache object. *)
Definition on_cache {A} (m : M (St SnapCache) A) : M (St _Cache) A :=
  on_field _cache (fun c _ => mk_Cache (Some c))
           (TypeError "'NoneType' object is not subscriptable") m.

(** [MetaCache.__getitem__]: [_Cache[name]] *)
Definition _Cache_getitem (name : string) : M (St _Cache) string :=
  on_cache (SnapCache.__getitem__ env name).

(** The body of the loop of [_wrap_snap_operations] for one name [s],
    with the two lists of the [snaps] dictionary. *)
Definition _wrap_one (state : SnapState) (channel : string) (classic : bool)
    (s : string) (snaps : list string * list string)
  : M (St _Cache) (list string * list string) :=
  try_except
    (snap <- _Cache_getitem s ;;
     (if state_is state Absent
      then on_cache (SnapCache.on_snap snap
                       (Snap.ensure env Absent false EmptyString))
      else on_cache (SnapCache.on_snap snap
                       (Snap.ensure env state classic channel))) ;;;
     ret ((snaps.1 ++ [snap])%list, snaps.2))
    (fun e =>
       match e with
       | SnapError _ => Some (ret (snaps.1, (snaps.2 ++ [s])%list))
       | SnapNotFoundError _ => Some (ret (snaps.1, (snaps.2 ++ [s])%list))
       | _ => None
       end).

Fixpoint _wrap_loop (state : SnapState) (channel : string) (classic : bool)
    (snap_names : list string) (snaps : list string * list string)
  : M (St _Cache) (list string * list string) :=
  match snap_names with
  | [] => ret snaps
  | s :: rest =>
      snaps' <- _wrap_one state channel classic s snaps ;;
      _wrap_loop state channel classic rest snaps'
  end.

(** [_wrap_snap_operations] *)
Definition _wrap_snap_operations (snap_names : list string)
    (state : SnapState) (channel : string) (classic : bool)
  : M (St _Cache) snaps_result :=
  snaps <- _wrap_loop state channel classic snap_names ([], []) ;;
  if negb (List.length snaps.2 =? 0)%nat
  then raise (SnapError
                [PyStr ("Failed to install or refresh snap(s): "
                          ++ join ", " snaps.2)])
  else if (1 <? List.length snaps.1)%nat then ret (SnapList snaps.1)
  else match snaps.1 with
       | snap :: _ => ret (OneSnap snap)
       | [] => raise (IndexError "list index out of range")
       end.

(** [[snap_names] if type(snap_names) is str else snap_names] *)
Definition names_of (snap_names : string + list string) : list string :=
  match snap_names with
  | inl s => [s]
  | inr l => l
  end.

(** [add], decorated with [_cache_init]. *)
Definition add (snap_names : string + list string)
    (state : string + SnapState) (channel : string) (classic : bool)
  : M (St _Cache) snaps_result :=
  _cache_init
    (let snap_names := names_of snap_names in
     match snap_names with
     | [] => raise (TypeError "Expected at least one snap to add, received zero!")
     | _ =>
         state <- match state with
                  | inl v =>
                      match SnapState_of_value v with
                      | Some st => ret st
                      | None => raise (ValueError
                                         ("'" ++ v ++ "' is not a valid SnapState"))
                      end
                  | inr st => ret st
                  end ;;
         _wrap_snap_operations snap_names state channel classic
     end).

(** [remove], decorated with [_cache_init]. *)
Definition remove (snap_names : string + list string)
  : M (St _Cache) snaps_result :=
  _cache_init
    (let snap_names := names_of snap_names in
     match snap_names with
     | [] => raise (TypeError "Expected at least one snap to add, received zero!")
     | _ => _wrap_snap_operations snap_names Absent EmptyString false
     end).

(** The bare function [ensure], decorated with [_cache_init]. *)
Definition ensure (snap_names : string + list string) (state : string)
    (channel : string) (classic : bool) : M (St _Cache) snaps_result :=
  _cache_init
    (if String.eqb state "present" || String.eqb state "latest"
     then match SnapState_of_value state with
          | Some st => add snap_names (inr st) channel classic
          | None => raise (ValueError
                             ("'" ++ state ++ "' is not a valid SnapState"))
          end
     else remove snap_names).

(** [install_local(self, filename, classic=False, dangerous=False)]: a
    module-level function whose first parameter is named [self].  The
    result is the [Snap] found in the cache built for the occasion. *)
Definition install_local {O} (self_ filename classic dangerous : pyval)
  : M (St O) Snap :=
  let _cmd := [PyStr "snap"; PyStr "install"; filename;
               PyStr (if truthy classic then "--classic" else EmptyString);
               PyStr (if truthy dangerous then "--dangerous" else EmptyString)] in
  out <- subprocess_check_output _cmd ;;
  match out with
  | CalledProcessError output =>
      raise (SnapError [PyStr "Could not install snap [%s]: %s";
                        PyList _cmd; filename; PyStr output])
  | Exit0 text =>
      match first_line text with
      | None => raise (IndexError "list index out of range")
      | Some result =>
          match split_space_1 result with
          | (_, None) =>
              raise (ValueError "not enough values to unpack (expected 2, got 1)")
          | (snap_name, Some _) =>
              c <- SnapCache.new env ;;
              on_field (fun _ => Some c) (fun _ o => o) (KeyError snap_name)
                (ref <- SnapCache.__getitem__ env snap_name ;;
                 c' <- gets self ;;
                 match SnapCache.deref c' ref with
                 | Some snap => ret snap
                 | None => raise (KeyError ref)
                 end)
          end
      end
  end.

(** The call [install_local(a0, a1, a2)] with three positional arguments:
    they bind the first three parameters, and [dangerous] keeps its
    default. *)
Definition install_local_3 {O} (a0 a1 a2 : pyval) : M (St O) Snap :=
  install_local a0 a1 a2 (PyBool false).

End WithEnv.

(** ** Observations on runs, and concrete environments *)

(** The events a computation adds to the trace when started in [st]. *)
Definition issued {O A} (m : M (St O) A) (st : St O) : list event :=
  drop (List.length (trace st)) (trace (m st).2).

(** The external commands among some events. *)
Definition commands (evs : list event) : list (list string) :=
  omap (fun e => match e with CheckOutput cmd => Some cmd | _ => None end) evs.

(** The record as the first statement of [Snap.ensure] leaves it: the
    confinement is rewritten before anything else happens. *)
Definition sticky (classic : bool) (s : Snap) : Snap :=
  with_confinement
    (if classic || String.eqb (_confinement s) "classic"
     then "classic" else EmptyString) s.

(** The command line [Snap.ensure] passes on when the current state is not
    the requested one; [s] is the record after the confinement has been
    rewritten.  [ensure_eq] below relates it to the code. *)
Definition ensure_cmd (state : SnapState) (channel : string) (s : Snap)
  : list string :=
  if negb (state_is state Present || state_is state Latest)
  then ["snap"; "remove"; _name s]
  else ["snap"; "install"; _name s;
        if String.eqb (_confinement s) "classic" then "--classic" else EmptyString;
        if negb (String.eqb channel EmptyString)
        then "--channel=" ++ dquote ++ channel ++ dquote else EmptyString].

(** A caller that issues a series of [ensure] calls on one record, going on
    after a call that raised. *)
Fixpoint ensure_calls (env : Env) (calls : list (SnapState * bool * string))
    (st : SnapSt) : SnapSt :=
  match calls with
  | [] => st
  | (state, classic, channel) :: rest =>
      ensure_calls env rest (Snap.ensure env state classic channel st).2
  end.

(** The operations of a record that run an external command. *)
Inductive record_op : Type :=
| OpGet (key : string)
| OpSet (key value : string)
| OpUnset (key : string)
| OpInstall (channel : string)
| OpRefresh (channel : string)
| OpRemove.

Definition run_op (env : Env) (op : record_op) : M SnapSt unit :=
  match op with
  | OpGet key => Snap.get env key ;;; ret tt
  | OpSet key value => Snap.set env key value ;;; ret tt
  | OpUnset key => Snap.unset env key ;;; ret tt
  | OpInstall channel => Snap._install env channel
  | OpRefresh channel => Snap._refresh env channel
  | OpRemove => Snap._remove env ;;; ret tt
  end.

(** How the loop of [_wrap_snap_operations] fares on one name: the name
    joins the successes, joins the failures, or an exception the loop does
    not handle escapes. *)
Inductive outcome : Type :=
| Succeeded
| Failed
| Escaped (e : exn).

Definition name_outcome (env : Env) (state : SnapState) (channel : string)
    (classic : bool) (s : string) (st : St _Cache) : outcome * St _Cache :=
  match _wrap_one env state channel classic s ([], []) st with
  | (Ret (_, []), st') => (Succeeded, st')
  | (Ret (_, _ :: _), st') => (Failed, st')
  | (Raise e, st') => (Escaped e, st')
  end.

Fixpoint outcomes (env : Env) (state : SnapState) (channel : string)
    (classic : bool) (snap_names : list string) (st : St _Cache)
  : list outcome :=
  match snap_names with
  | [] => []
  | s :: rest =>
      let '(o, st') := name_outcome env state channel classic s st in
      o :: outcomes env state channel classic rest st'
  end.

(** The record a reference of the process-wide cache points to. *)
Definition cached (g : _Cache) (ref : string) : option Snap :=
  match _cache g with
  | Some c => SnapCache.deref c ref
  | None => None
  end.

(** The interactions the construction of a cache consists of: looking for
    files, reading the index file, and listing the installed snaps.  No
    command, and no find request. *)
Definition construction_event (e : event) : bool :=
  match e with
  | IsFile _ | ReadLines _ => true
  | Request method path query =>
      String.eqb method "GET" && String.eqb path "snaps"
  | CheckOutput _ => false
  end.

(** A computation only ever adds events that satisfy [P] to the trace. *)
Definition adds_only (P : event -> bool) {O A} (m : M (St O) A) : Prop :=
  forall st, exists evs,
    trace (m st).2 = (trace st ++ evs)%list /\ forallb P evs = true.

(** The record behind the reference [ref] is in state [state]. *)
Definition settled (state : SnapState) (g : _Cache) (ref : string) : Prop :=
  exists snap, cached g ref = Some snap /\ _state snap = state.

(** An environment that answers regardless of the history. *)
Definition static_env (files : string -> bool) (index : list string)
    (daemon : string -> list (string * string) -> http_outcome)
    (runner : list string -> proc_outcome) : Env :=
  {| isfile := fun _ path => files path;
     file_lines := fun _ _ => index;
     urlopen := fun _ _ path query => daemon path query;
     check_output := fun _ cmd => runner cmd |}.

(** snapd is installed, there is no index file, nothing is installed, the
    store knows no snap at all (every find answers with an empty list), and
    every command succeeds or fails according to [ok]. *)
Definition bare_env (ok : list string -> bool) : Env :=
  static_env (fun path => String.eqb path "/usr/bin/snap") []
             (fun _ _ => Response [])
             (fun cmd => if ok cmd then Exit0 "done" else CalledProcessError "error: failed").

(** Two installed snaps, ["a"] and ["b"], in the process-wide cache, and a
    [snap] tool that fails on every command that mentions ["b"]. *)
Definition cache_a_b : _Cache :=
  mk_Cache (Some (mkSnapCache
    (<["a" := Some (mkSnap "a" Latest "stable" "7" "strict")]>
       (<["b" := Some (mkSnap "b" Latest "stable" "10" "strict")]> ∅)))).

Definition env_b_fails : Env :=
  bare_env (fun cmd => negb (existsb (String.eqb "b") cmd)).

Definition foo_latest : Snap := mkSnap "foo" Latest "stable" "10" "strict".

(** The commands [Snap.ensure] may run on the snap called [name]. *)
Definition ensure_event (name : string) (e : event) : bool :=
  match e with
  | CheckOutput (prog :: sub :: n :: _) =>
      String.eqb prog "snap"
      && (String.eqb sub "remove" || String.eqb sub "install")
      && String.eqb n name
  | _ => false
  end.


(** A computation keeps an invariant of its object, also when it raises. *)
Definition keeps {O A} (I : O -> Prop) (m : M (St O) A) : Prop :=
  forall st, I (self st) -> I (self (m st).2).

(** The record [_load_installed_snaps] and [_load_info] build from one
    object of a daemon answer, or the key of the first of the four fields,
    in the order the code reads them, that the object lacks. *)
Definition snap_of_info (state : SnapState) (info : gmap string string)
  : string + Snap :=
  match info !! "name" with
  | None => inl "name"
  | Some name =>
      match info !! "channel" with
      | None => inl "channel"
      | Some channel =>
          match info !! "revision" with
          | None => inl "revision"
          | Some revision =>
              match info !! "confinement" with
              | None => inl "confinement"
              | Some confinement =>
                  inr (mkSnap name state channel revision confinement)
              end
          end
      end
  end.

(** The find request a lookup of [name] sends. *)
Definition find_request (name : string) : event :=
  Request "GET" "find" [("name", name)].

(** The object the daemon sends for a snap. *)
Definition info_of (s : Snap) : gmap string string :=
  <["name" := _name s]>
    (<["channel" := _channel s]>
       (<["revision" := _revision s]>
          (<["confinement" := _confinement s]> ∅))).

(** A history-independent environment with snapd in place and no index
    file: the daemon lists [installed], answers a find for the name of a
    snap in [known] with that snap and any other find with a 404, and
    commands succeed or fail according to [ok]. *)
Definition store_env (installed known : list Snap)
    (ok : list string -> bool) : Env :=
  static_env (fun path => String.eqb path "/usr/bin/snap") []
    (fun path query =>
       if String.eqb path "snaps" then Response (info_of <$> installed)
       else
         match query with
         | [(_, name)] =>
             match List.find (fun s => String.eqb (_name s) name) known with
             | Some s => Response [info_of s]
             | None => HTTPError 404 "Not Found" (inl ∅)
             end
         | _ => Response []
         end)
    (fun cmd => if ok cmd then Exit0 "done" else CalledProcessError "error: failed").

Definition bar_available : Snap := mkSnap "bar" Available "edge" "3" "classic".


(** Every loaded record of the cache is in state [Latest] and is stored
    under its own name. *)
Definition named_latest (c : SnapCache) : Prop :=
  forall k snap,
    _snap_map c !! k = Some (Some snap) ->
    _state snap = Latest /\ _name snap = k.

(** What one line of the index file and one object of the list of
    installed snaps do to [_snap_map] in the loops of
    [_load_available_snaps] and [_load_installed_snaps]. *)
Definition index_step (m : gmap string (option Snap)) (line : string)
  : gmap string (option Snap) :=
  if negb (String.eqb (strip line) EmptyString)
  then <[strip line := None]> m else m.

Definition installed_step (m : gmap string (option Snap))
    (i : gmap string string) : gmap string (option Snap) :=
  match snap_of_info Latest i with
  | inr snap => <[_name snap := Some snap]> m
  | inl _ => m
  end.

(** An index file that names ["foo"] and ["bar"] among blank lines, and a
    daemon that reports ["foo"] as the one installed snap. *)
Definition index_foo_bar : list string := ["foo"; "  "; " bar "].

Definition daemon_foo (path : string) (query : list (string * string))
  : http_outcome :=
  if String.eqb path "snaps" then Response [info_of foo_latest] else Response [].

(** The names of a batch whose outcome satisfies [p]. *)
Fixpoint names_where (p : outcome -> bool) (snap_names : list string)
    (outs : list outcome) : list string :=
  match snap_names, outs with
  | n :: snap_names', o :: outs' =>
      if p o then n :: names_where p snap_names' outs'
      else names_where p snap_names' outs'
  | _, _ => []
  end.

Definition is_succeeded (o : outcome) : bool :=
  match o with Succeeded => true | _ => false end.
Definition is_failed (o : outcome) : bool :=
  match o with Failed => true | _ => false end.
Definition is_escaped (o : outcome) : bool :=
  match o with Escaped _ => true | _ => false end.



(** * Properties *)

(** ** A record's [ensure] *)

Lemma issued_app {O A} (m : M (St O) A) (st : St O) (evs : list event) :
  trace (m st).2 = (trace st ++ evs)%list -> issued m st = evs.
Proof.
  intros H. unfold issued. rewrite H. by rewrite drop_app_length.
Qed.

(** [ensure] in one equation. *)
Lemma ensure_eq env state classic channel (st : SnapSt) :
  Snap.ensure env state classic channel st =
    let s1 := sticky classic (self st) in
    if state_is (_state (self st)) state then (Ret tt, mkSt s1 (trace st))
    else
      let cmd := ensure_cmd state channel s1 in
      let tr' := (trace st ++ [CheckOutput cmd])%list in
      match check_output env (trace st) cmd with
      | Exit0 _ => (Ret tt, mkSt (with_state state s1) tr')
      | CalledProcessError output =>
          (Raise (SnapError [PyStr "Could not %s snap [%s]: %s";
                             PyList (PyStr <$> cmd);
                             PyStr (_name (self st));
                             PyStr output]), mkSt s1 tr')
      end.
Proof.
  destruct st as [s tr].
  unfold Snap.ensure, ensure_cmd, sticky, bind, modify, gets, ret; simpl.
  destruct (state_is (_state s) state); simpl; [reflexivity|].
  destruct (state_is state Present || state_is state Latest); simpl.
  - unfold Snap._install, Snap._snap, bind, gets, ret; simpl.
    destruct (check_output env tr _); reflexivity.
  - unfold Snap._remove, Snap._snap, bind, ret; simpl.
    destruct (check_output env tr _); reflexivity.
Qed.

Lemma state_is_true a b : state_is a b = true <-> a = b.
Proof. unfold state_is. apply bool_decide_eq_true. Qed.

Lemma state_is_false a b : state_is a b = false <-> a <> b.
Proof. unfold state_is. apply bool_decide_eq_false. Qed.

(** C1 (as the code has it): when the current state differs from the
    requested one, [ensure] runs exactly one command: [snap remove] when
    the requested state is [Absent] or [Available], and [snap install]
    (with the confinement flag as just rewritten and the channel flag)
    when it is [Present] or [Latest]. *)
Theorem C1_ensure_action env state classic channel (st : SnapSt) :
  _state (self st) <> state ->
  issued (Snap.ensure env state classic channel) st =
    [CheckOutput
       (match state with
        | Absent | Available => ["snap"; "remove"; _name (self st)]
        | Present | Latest =>
            ["snap"; "install"; _name (self st);
             if classic || String.eqb (_confinement (self st)) "classic"
             then "--classic" else EmptyString;
             if negb (String.eqb channel EmptyString)
             then "--channel=" ++ dquote ++ channel ++ dquote
             else EmptyString]
        end)].
Proof.
  intros Hne. apply issued_app. rewrite ensure_eq. cbv zeta.
  apply state_is_false in Hne. rewrite Hne.
  assert (Hcmd : ensure_cmd state channel (sticky classic (self st)) =
    match state with
    | Absent | Available => ["snap"; "remove"; _name (self st)]
    | Present | Latest =>
        ["snap"; "install"; _name (self st);
         if classic || String.eqb (_confinement (self st)) "classic"
         then "--classic" else EmptyString;
         if negb (String.eqb channel EmptyString)
         then "--channel=" ++ dquote ++ channel ++ dquote
         else EmptyString]
    end).
  { unfold ensure_cmd, sticky. destruct state; simpl; try reflexivity;
      destruct (classic || String.eqb (_confinement (self st)) "classic");
      reflexivity. }
  rewrite Hcmd.
  destruct (check_output env (trace st) _); reflexivity.
Qed.

Lemma C1_ensure_action_witness :
  _state (with_state Absent foo_latest) <> Latest /\
  issued (Snap.ensure (bare_env (fun _ => true)) Latest true "edge")
         (mkSt (with_state Absent foo_latest) []) =
    [CheckOutput ["snap"; "install"; "foo"; "--classic";
                  "--channel=" ++ dquote ++ "edge" ++ dquote]].
Proof.
  split; [simpl; discriminate|].
  apply (C1_ensure_action (bare_env (fun _ => true)) Latest true "edge"
           (mkSt (with_state Absent foo_latest) [])).
  simpl. discriminate.
Defined.

(** C1, counterexample: a record in state [Latest] asked for [Available], a
    state other than [Absent], gets [snap remove], and no [snap install]. *)
Lemma C1_counterexample :
  _state foo_latest <> Available /\ Available <> Absent /\
  issued (Snap.ensure (bare_env (fun _ => true)) Available false EmptyString)
         (mkSt foo_latest []) = [CheckOutput ["snap"; "remove"; "foo"]] /\
  ~ (exists args,
       issued (Snap.ensure (bare_env (fun _ => true)) Available false EmptyString)
              (mkSt foo_latest []) = [CheckOutput ("snap" :: "install" :: args)]).
Proof.
  split; [discriminate|]. split; [discriminate|].
  split; [reflexivity|].
  intros [args H]. vm_compute in H. discriminate H.
Qed.

(** C2 (as the code has it): when the current state already is the
    requested one, [ensure(state, classic=True, channel)] returns without
    running anything and leaves name, state, channel and revision as they
    were; the confinement, rewritten before the states are compared, is
    ["classic"] afterwards. *)
Theorem C2_ensure_equal_state env state channel (st : SnapSt) :
  _state (self st) = state ->
  let '(r, st') := Snap.ensure env state true channel st in
  r = Ret tt /\ trace st' = trace st /\
  _name (self st') = _name (self st) /\
  _state (self st') = _state (self st) /\
  _channel (self st') = _channel (self st) /\
  _revision (self st') = _revision (self st) /\
  _confinement (self st') = "classic".
Proof.
  intros Heq. rewrite ensure_eq. cbv zeta.
  apply state_is_true in Heq. rewrite Heq. simpl. tauto.
Qed.

Lemma C2_ensure_equal_state_witness :
  _state foo_latest = Latest /\
  let '(r, st') := Snap.ensure (bare_env (fun _ => false)) Latest true "edge"
                     (mkSt foo_latest []) in
  r = Ret tt /\ trace st' = [] /\
  _name (self st') = "foo" /\
  _state (self st') = Latest /\
  _channel (self st') = "stable" /\
  _revision (self st') = "10" /\
  _confinement (self st') = "classic".
Proof.
  split; [reflexivity|].
  apply (C2_ensure_equal_state (bare_env (fun _ => false)) Latest "edge"
           (mkSt foo_latest [])).
  reflexivity.
Defined.

(** C2, counterexample: a strictly confined record already in state
    [Latest]; [ensure(Latest, classic=True)] runs nothing, yet the record's
    confinement has changed from ["strict"] to ["classic"]. *)
Lemma C2_counterexample :
  _state foo_latest = Latest /\
  issued (Snap.ensure (bare_env (fun _ => true)) Latest true EmptyString)
         (mkSt foo_latest []) = [] /\
  _confinement foo_latest = "strict" /\
  _confinement
    (self (Snap.ensure (bare_env (fun _ => true)) Latest true EmptyString
             (mkSt foo_latest [])).2) = "classic" /\
  self (Snap.ensure (bare_env (fun _ => true)) Latest true EmptyString
          (mkSt foo_latest [])).2 <> foo_latest.
Proof.
  repeat split; try reflexivity. vm_compute. discriminate.
Qed.

(** C6: when [ensure] has to act, it runs one command; if that command
    exits zero the call returns and the record's state is the requested
    one; if it exits non-zero the call raises [SnapError] and the record's
    state is the one it had. *)
Theorem C6_ensure_state_follows_exit_code env state classic channel (st : SnapSt) :
  _state (self st) <> state ->
  let '(r, st') := Snap.ensure env state classic channel st in
  exists cmd,
    trace st' = (trace st ++ [CheckOutput cmd])%list /\
    match check_output env (trace st) cmd with
    | Exit0 _ => r = Ret tt /\ _state (self st') = state
    | CalledProcessError _ =>
        (exists args, r = Raise (SnapError args)) /\
        _state (self st') = _state (self st)
    end.
Proof.
  intros Hne. rewrite ensure_eq. cbv zeta.
  apply state_is_false in Hne. rewrite Hne.
  destruct (check_output env (trace st) _) eqn:Hrun;
    eexists; (split; [reflexivity|]); rewrite Hrun; simpl; eauto.
Qed.

Lemma C6_ensure_state_follows_exit_code_witness :
  _state foo_latest <> Absent /\
  let '(r, st') := Snap.ensure (bare_env (fun _ => false)) Absent false EmptyString
                     (mkSt foo_latest []) in
  exists cmd,
    trace st' = ([] ++ [CheckOutput cmd])%list /\
    match check_output (bare_env (fun _ => false)) [] cmd with
    | Exit0 _ => r = Ret tt /\ _state (self st') = Absent
    | CalledProcessError _ =>
        (exists args, r = Raise (SnapError args)) /\
        _state (self st') = Latest
    end.
Proof.
  split; [simpl; discriminate|].
  apply (C6_ensure_state_follows_exit_code (bare_env (fun _ => false))
           Absent false EmptyString (mkSt foo_latest [])).
  simpl. discriminate.
Defined.

Lemma sticky_idem classic s : sticky classic (sticky classic s) = sticky classic s.
Proof.
  unfold sticky, with_confinement; simpl.
  destruct classic; simpl; [reflexivity|].
  destruct (String.eqb (_confinement s) "classic"); reflexivity.
Qed.

Lemma sticky_with_state classic state s :
  sticky classic (with_state state s) = with_state state (sticky classic s).
Proof. reflexivity. Qed.

(** C8 (as the code has it): when a call of [ensure] returns, the same call
    repeated returns as well, runs no command and leaves the record as it
    is; the two calls together have run at most one command. *)
Theorem C8_ensure_twice env state classic channel (st : SnapSt) :
  (Snap.ensure env state classic channel st).1 = Ret tt ->
  Snap.ensure env state classic channel
              (Snap.ensure env state classic channel st).2
    = (Ret tt, (Snap.ensure env state classic channel st).2) /\
  (List.length
     (commands
        (drop (List.length (trace st))
           (trace (Snap.ensure env state classic channel
                     (Snap.ensure env state classic channel st).2).2))) <= 1)%nat.
Proof.
  intros Hret.
  assert (Hsnd : Snap.ensure env state classic channel
              (Snap.ensure env state classic channel st).2
    = (Ret tt, (Snap.ensure env state classic channel st).2)).
  { rewrite (ensure_eq env state classic channel st) in Hret |- *.
    cbv zeta in Hret |- *.
    destruct (state_is (_state (self st)) state) eqn:Hst.
    - rewrite ensure_eq; simpl. rewrite Hst, sticky_idem. reflexivity.
    - destruct (check_output env (trace st) _); [|discriminate Hret].
      rewrite ensure_eq; simpl.
      replace (state_is state state) with true
        by (symmetry; by apply state_is_true).
      rewrite sticky_with_state, sticky_idem. reflexivity. }
  split; [exact Hsnd|].
  rewrite Hsnd; simpl.
  rewrite ensure_eq; cbv zeta.
  destruct (state_is (_state (self st)) state); simpl.
  - rewrite drop_all. simpl. lia.
  - destruct (check_output env (trace st) _); simpl;
      rewrite drop_app_length; simpl; lia.
Qed.

Lemma C8_ensure_twice_witness :
  (Snap.ensure (bare_env (fun _ => true)) Absent false EmptyString
     (mkSt foo_latest [])).1 = Ret tt /\
  Snap.ensure (bare_env (fun _ => true)) Absent false EmptyString
    (Snap.ensure (bare_env (fun _ => true)) Absent false EmptyString
       (mkSt foo_latest [])).2
  = (Ret tt, (Snap.ensure (bare_env (fun _ => true)) Absent false EmptyString
                (mkSt foo_latest [])).2) /\
  (List.length
     (commands
        (drop (List.length (@nil event))
           (trace (Snap.ensure (bare_env (fun _ => true)) Absent false EmptyString
                     (Snap.ensure (bare_env (fun _ => true)) Absent false
                        EmptyString (mkSt foo_latest [])).2).2))) <= 1)%nat.
Proof.
  split; [reflexivity|].
  apply (C8_ensure_twice (bare_env (fun _ => true)) Absent false EmptyString
           (mkSt foo_latest [])).
  reflexivity.
Defined.

(** C8, counterexample: the [snap remove] of the first call exits non-zero,
    so the call raises and the state stays [Latest]; the identical second
    call runs [snap remove] again: two commands in total. *)
Lemma C8_counterexample :
  (exists args,
     (Snap.ensure (bare_env (fun _ => false)) Absent false EmptyString
        (mkSt foo_latest [])).1 = Raise (SnapError args)) /\
  issued (Snap.ensure (bare_env (fun _ => false)) Absent false EmptyString)
         (Snap.ensure (bare_env (fun _ => false)) Absent false EmptyString
            (mkSt foo_latest [])).2
    = [CheckOutput ["snap"; "remove"; "foo"]] /\
  commands
    (trace (Snap.ensure (bare_env (fun _ => false)) Absent false EmptyString
              (Snap.ensure (bare_env (fun _ => false)) Absent false EmptyString
                 (mkSt foo_latest [])).2).2)
    = [["snap"; "remove"; "foo"]; ["snap"; "remove"; "foo"]].
Proof. split; [eexists; reflexivity|]. split; reflexivity. Qed.

Lemma ensure_confinement env state classic channel (st : SnapSt) :
  _confinement (self (Snap.ensure env state classic channel st).2) =
    if classic || String.eqb (_confinement (self st)) "classic"
    then "classic" else EmptyString.
Proof.
  rewrite ensure_eq; cbv zeta.
  destruct (state_is (_state (self st)) state); [reflexivity|].
  destruct (check_output env (trace st) _); reflexivity.
Qed.

Lemma ensure_calls_classic env calls : forall st : SnapSt,
  _confinement (self st) = "classic" ->
  _confinement (self (ensure_calls env calls st)) = "classic".
Proof.
  induction calls as [|[[state classic] channel] calls IH]; intros st Hc;
    simpl; [exact Hc|].
  apply IH. rewrite ensure_confinement, Hc, orb_true_r. reflexivity.
Qed.

(** C9: once a record is classic, or a call of [ensure] passes
    [classic=True], the confinement is ["classic"] after that call and after
    any series of further [ensure] calls, whatever their arguments and
    whether they return or raise. *)
Theorem C9_confinement_monotone env state classic channel calls (st : SnapSt) :
  classic = true \/ _confinement (self st) = "classic" ->
  _confinement
    (self (ensure_calls env ((state, classic, channel) :: calls) st))
    = "classic".
Proof.
  intros H. simpl. apply ensure_calls_classic.
  rewrite ensure_confinement.
  destruct H as [-> | ->]; [reflexivity|].
  rewrite orb_true_r. reflexivity.
Qed.

Lemma C9_confinement_monotone_witness :
  (true = true \/ _confinement (self (mkSt foo_latest [])) = "classic") /\
  _confinement
    (self (ensure_calls (bare_env (fun _ => false))
             [(Latest, true, "edge"); (Absent, false, EmptyString);
              (Present, false, "stable")]
             (mkSt foo_latest [])))
    = "classic".
Proof.
  split; [left; reflexivity|].
  apply (C9_confinement_monotone (bare_env (fun _ => false)) Latest true "edge"
           [(Absent, false, EmptyString); (Present, false, "stable")]
           (mkSt foo_latest [])).
  left; reflexivity.
Defined.

(** C10: every operation of a record that runs a command runs exactly one;
    when it exits non-zero the operation raises a [SnapError] whose
    [message] is the format string itself, the command line, the snap name
    and the captured output being further arguments of the exception. *)
Theorem C10_error_message_unformatted env op (st : SnapSt) :
  let '(r, st') := run_op env op st in
  exists cmd,
    trace st' = (trace st ++ [CheckOutput cmd])%list /\
    match check_output env (trace st) cmd with
    | Exit0 _ => r = Ret tt
    | CalledProcessError output =>
        exists e,
          r = Raise e /\
          message e = Some (PyStr "Could not %s snap [%s]: %s") /\
          e = SnapError [PyStr "Could not %s snap [%s]: %s";
                         PyList (PyStr <$> cmd);
                         PyStr (_name (self st));
                         PyStr output]
    end.
Proof.
  destruct st as [s tr].
  destruct op; simpl;
    unfold Snap.get, Snap.set, Snap.unset, Snap._install, Snap._refresh,
      Snap._remove, Snap._snap, bind, gets, ret; simpl;
    destruct (check_output env tr _) eqn:Hrun;
    eexists; (split; [reflexivity|]); rewrite Hrun; eauto.
Qed.

(** ** Cache lookups *)

(** C3: when the name is not loaded in the cache and the daemon answers the
    find request with an empty result list, [SnapCache.__getitem__] lets
    the [IndexError] of [get_snap_information] through: its [except] clause
    handles [SnapAPIError] only, so no [SnapNotFoundError] is raised. *)
Theorem C3_zero_matches_IndexError env (c : SnapCache) tr snap_name :
  SnapCache.deref c snap_name = None ->
  urlopen env tr "GET" "find" [("name", snap_name)] = Response [] ->
  SnapCache.__getitem__ env snap_name (mkSt c tr) =
    (Raise (IndexError "list index out of range"),
     mkSt c (tr ++ [Request "GET" "find" [("name", snap_name)]])).
Proof.
  intros Hmiss Hfind.
  unfold SnapCache.__getitem__, bind, gets; simpl.
  assert (Hsnap : match _snap_map c !! snap_name with
                  | Some v => v
                  | None => None
                  end = None).
  { unfold SnapCache.deref in Hmiss.
    destruct (_snap_map c !! snap_name) as [[?|]|]; [discriminate|done|done]. }
  rewrite Hsnap.
  unfold try_except, SnapCache._load_info, SnapClient.get_snap_information,
    SnapClient._request, on_trace, bind; simpl.
  rewrite Hfind. reflexivity.
Qed.

Lemma C3_zero_matches_IndexError_witness :
  SnapCache.deref (mkSnapCache ∅) "foo" = None /\
  urlopen (bare_env (fun _ => true)) [] "GET" "find" [("name", "foo")]
    = Response [] /\
  SnapCache.__getitem__ (bare_env (fun _ => true)) "foo"
    (mkSt (mkSnapCache ∅) []) =
    (Raise (IndexError "list index out of range"),
     mkSt (mkSnapCache ∅) ([] ++ [Request "GET" "find" [("name", "foo")]])).
Proof.
  split; [reflexivity|]. split; [reflexivity|].
  apply (C3_zero_matches_IndexError (bare_env (fun _ => true))
           (mkSnapCache ∅) [] "foo"); reflexivity.
Defined.

(** The translation the lookup does perform: a find request that fails
    with an [HTTPError] or a [URLError] becomes [SnapNotFoundError]. *)
Lemma getitem_api_error_not_found env (c : SnapCache) tr snap_name :
  SnapCache.deref c snap_name = None ->
  (forall result,
     urlopen env tr "GET" "find" [("name", snap_name)] <> Response result) ->
  (SnapCache.__getitem__ env snap_name (mkSt c tr)).1 =
    Raise (SnapNotFoundError [PyStr ("Snap '" ++ snap_name ++ "' not found!")]).
Proof.
  intros Hmiss Hfind.
  unfold SnapCache.__getitem__, bind, gets; simpl.
  assert (Hsnap : match _snap_map c !! snap_name with
                  | Some v => v
                  | None => None
                  end = None).
  { unfold SnapCache.deref in Hmiss.
    destruct (_snap_map c !! snap_name) as [[?|]|]; [discriminate|done|done]. }
  rewrite Hsnap.
  unfold try_except, SnapCache._load_info, SnapClient.get_snap_information,
    SnapClient._request, on_trace, bind; simpl.
  destruct (urlopen env tr "GET" "find" [("name", snap_name)])
    as [result|code reason [body|descr]|reason]; simpl; try reflexivity.
  exfalso. by eapply Hfind.
Qed.

(** ** [install_local] *)

(** C4: called with a path, a classic flag and a dangerous flag, the three
    positional arguments bind [self], [filename] and [classic]; the flag
    meant as [classic] lands in the command line as the file name, and
    [subprocess.check_output] rejects it with [TypeError] before any
    process is started.  Nothing is installed and no record is returned. *)
Theorem C4_install_local_three_arguments env {O} (st : St O)
    (path : string) (classic dangerous : bool) :
  install_local_3 env (PyStr path) (PyBool classic) (PyBool dangerous) st =
    (Raise (TypeError "expected str, bytes or os.PathLike object, not bool"), st).
Proof. reflexivity. Qed.

(** With a fourth, leading argument in the place of [self], the command
    line is the documented one, and a failing command raises [SnapError]. *)
Lemma install_local_four_arguments_failure env {O} (st : St O) (a0 : pyval)
    (path output : string) (classic dangerous : bool) :
  check_output env (trace st)
    ["snap"; "install"; path;
     if classic then "--classic" else EmptyString;
     if dangerous then "--dangerous" else EmptyString]
    = CalledProcessError output ->
  exists args,
    (install_local env a0 (PyStr path) (PyBool classic) (PyBool dangerous) st).1
      = Raise (SnapError args).
Proof.
  intros Hrun. destruct st as [o tr]; simpl in *.
  unfold install_local, subprocess_check_output, bind, on_trace; simpl.
  rewrite Hrun. eauto.
Qed.

(** ** The process-wide cache and the bare functions *)

Section AddsOnly.
Context (P : event -> bool) {O : Type}.

Lemma adds_only_ret {A} (a : A) : adds_only P (ret (St:=St O) a).
Proof. intros st. exists []. by rewrite app_nil_r. Qed.

Lemma adds_only_raise {A} e : adds_only P (raise (St:=St O) (A:=A) e).
Proof. intros st. exists []. by rewrite app_nil_r. Qed.

Lemma adds_only_gets {A} (f : St O -> A) : adds_only P (gets f).
Proof. intros st. exists []. by rewrite app_nil_r. Qed.

Lemma adds_only_set_self (f : O -> O) : adds_only P (set_self f).
Proof. intros st. exists []. by rewrite app_nil_r. Qed.

Lemma adds_only_bind {A B} (m : M (St O) A) (k : A -> M (St O) B) :
  adds_only P m -> (forall a, adds_only P (k a)) -> adds_only P (bind m k).
Proof.
  intros Hm Hk st. unfold bind.
  destruct (Hm st) as (evs & Htr & Hevs).
  destruct (m st) as [[a|e] st1]; simpl in *.
  - destruct (Hk a st1) as (evs' & Htr' & Hevs').
    exists (evs ++ evs')%list. split.
    + by rewrite Htr', Htr, app_assoc.
    + rewrite forallb_app, Hevs, Hevs'. reflexivity.
  - by exists evs.
Qed.

Lemma adds_only_for_each {A} (l : list A) (body : A -> M (St O) unit) :
  (forall x, adds_only P (body x)) -> adds_only P (for_each l body).
Proof.
  intros Hbody. induction l as [|x l IH]; simpl.
  - apply adds_only_ret.
  - apply adds_only_bind; [apply Hbody|]. intros _. exact IH.
Qed.

Lemma adds_only_dict_getitem d k : adds_only P (dict_getitem (O:=O) d k).
Proof.
  unfold dict_getitem. destruct (d !! k);
    [apply adds_only_ret | apply adds_only_raise].
Qed.

Lemma adds_only_isfile env path :
  P (IsFile path) = true -> adds_only P (os_path_isfile env (O:=O) path).
Proof.
  intros HP st. exists [IsFile path]. simpl. by rewrite HP.
Qed.
End AddsOnly.

Lemma adds_only_load_available env :
  adds_only construction_event (SnapCache._load_available_snaps env).
Proof.
  unfold SnapCache._load_available_snaps.
  apply adds_only_bind; [by apply adds_only_isfile|].
  intros [|]; simpl; [|apply adds_only_ret].
  apply adds_only_bind.
  - intros st. exists [ReadLines "/var/cache/snapd/names"]. done.
  - intros f. apply adds_only_for_each. intros line.
    destruct (negb _); [apply adds_only_set_self | apply adds_only_ret].
Qed.

Lemma adds_only_load_installed env :
  adds_only construction_event (SnapCache._load_installed_snaps env).
Proof.
  unfold SnapCache._load_installed_snaps.
  apply adds_only_bind.
  - intros st. exists [Request "GET" "snaps" []].
    unfold SnapClient.get_installed_snaps, SnapClient._request, on_trace.
    destruct (urlopen env (trace st) "GET" "snaps" [])
      as [?|? ? [?|?]|?]; done.
  - intros installed. apply adds_only_for_each. intros i.
    repeat (apply adds_only_bind; [apply adds_only_dict_getitem|intros ?]).
    apply adds_only_set_self.
Qed.

Lemma adds_only_init env :
  adds_only construction_event (SnapCache.__init__ env).
Proof.
  unfold SnapCache.__init__, SnapCache.snapd_installed.
  apply adds_only_bind; [by apply adds_only_isfile|].
  intros [|]; simpl; [|apply adds_only_raise].
  apply adds_only_bind; [apply adds_only_set_self|intros _].
  apply adds_only_bind; [by apply adds_only_isfile|].
  intros [|]; [|apply adds_only_ret].
  apply adds_only_bind; [apply adds_only_load_available|intros _].
  apply adds_only_load_installed.
Qed.

Lemma adds_only_new env {O} :
  adds_only construction_event (SnapCache.new env (O:=O)).
Proof.
  intros st. unfold SnapCache.new.
  destruct (adds_only_init env (mkSt (mkSnapCache ∅) (trace st)))
    as (evs & Htr & Hevs).
  destruct (SnapCache.__init__ env _) as [[[]|e] st']; simpl in *; eauto.
Qed.

(** The decorator in one equation. *)
Lemma cache_init_eq env {A} (func : M (St _Cache) A) (st : St _Cache) :
  _cache_init env func st =
    match _cache (self st) with
    | Some _ => func st
    | None =>
        match SnapCache.new env st with
        | (Ret c, st') => func (mkSt (mk_Cache (Some c)) (trace st'))
        | (Raise e, st') => (Raise e, st')
        end
    end.
Proof.
  destruct st as [[c] tr]. unfold _cache_init, bind, gets; simpl.
  destruct c as [c|]; [reflexivity|].
  destruct (SnapCache.new env _) as [[c'|e] st']; reflexivity.
Qed.

(** C5 (as the code has it): with an empty list of names, [add], [remove]
    and the bare [ensure] raise [TypeError] without touching the
    environment when the process-wide cache exists.  When it does not, the
    decorator constructs it first: the files are probed and the daemon is
    asked for the installed snaps, the [TypeError] is raised only if that
    succeeds, and an exception of the construction is raised in its place
    otherwise.  In every case no command is run and no find request is
    sent. *)
Theorem C5_empty_names env (st : St _Cache) (state : string + SnapState)
    (sstate channel : string) (classic : bool) :
  let err := TypeError "Expected at least one snap to add, received zero!" in
  let expected : res snaps_result * St _Cache :=
    match _cache (self st) with
    | Some _ => (Raise err, st)
    | None =>
        match SnapCache.new env st with
        | (Ret c, st') => (Raise err, mkSt (mk_Cache (Some c)) (trace st'))
        | (Raise e, st') => (Raise e, st')
        end
    end in
  add env (inr []) state channel classic st = expected /\
  remove env (inr []) st = expected /\
  ensure env (inr []) sstate channel classic st = expected /\
  forallb construction_event
    (drop (List.length (trace st)) (trace expected.2)) = true.
Proof.
  cbv zeta.
  assert (Hadd : forall state' st',
    is_Some (_cache (self st')) ->
    add env (inr []) state' channel classic st' =
      (Raise (TypeError "Expected at least one snap to add, received zero!"), st')).
  { intros state' st' [c Hc]. unfold add. rewrite cache_init_eq, Hc. reflexivity. }
  assert (Hrem : forall st',
    is_Some (_cache (self st')) ->
    remove env (inr []) st' =
      (Raise (TypeError "Expected at least one snap to add, received zero!"), st')).
  { intros st' [c Hc]. unfold remove. rewrite cache_init_eq, Hc. reflexivity. }
  assert (Hbody : forall st',
    is_Some (_cache (self st')) ->
    (if String.eqb sstate "present" || String.eqb sstate "latest"
     then match SnapState_of_value sstate with
          | Some st0 => add env (inr []) (inr st0) channel classic
          | None => raise (ValueError ("'" ++ sstate ++ "' is not a valid SnapState"))
          end
     else remove env (inr [])) st' =
      (Raise (TypeError "Expected at least one snap to add, received zero!"), st')).
  { intros st' Hc.
    destruct (String.eqb sstate "present") eqn:Hp; simpl.
    - apply String.eqb_eq in Hp. subst sstate. simpl. by apply Hadd.
    - destruct (String.eqb sstate "latest") eqn:Hl; [|by apply Hrem].
      apply String.eqb_eq in Hl. subst sstate. simpl. by apply Hadd. }
  unfold add at 1, remove at 1, ensure. rewrite !cache_init_eq.
  destruct (_cache (self st)) as [c|] eqn:Hc.
  - split; [reflexivity|]. split; [reflexivity|].
    split; [apply Hbody; rewrite Hc; eauto|].
    simpl. by rewrite drop_all.
  - destruct (adds_only_new env st) as (evs & Htr & Hevs).
    destruct (SnapCache.new env st) as [[c'|e] st']; simpl in *.
    + split; [reflexivity|]. split; [reflexivity|].
      split; [apply Hbody; simpl; eauto|].
      by rewrite Htr, drop_app_length.
    + repeat split. by rewrite Htr, drop_app_length.
Qed.

(** C5, counterexample: the process-wide cache does not exist yet and
    [add([])] is called.  Before the [TypeError] surfaces, the decorator has
    probed three files and queried the daemon for the installed snaps. *)
Lemma C5_counterexample :
  add (bare_env (fun _ => true)) (inr []) (inr Latest) "latest" false
      (mkSt (mk_Cache None) []) =
    (Raise (TypeError "Expected at least one snap to add, received zero!"),
     mkSt (mk_Cache (Some (mkSnapCache ∅)))
          [IsFile "/usr/bin/snap"; IsFile "/usr/bin/snap";
           IsFile "/var/cache/snapd/names"; Request "GET" "snaps" []]) /\
  issued (add (bare_env (fun _ => true)) (inr []) (inr Latest) "latest" false)
         (mkSt (mk_Cache None) []) <> [].
Proof. split; [reflexivity|]. vm_compute. discriminate. Qed.

(** When snapd is not installed, the empty list is not even reported: the
    construction of the cache fails first. *)
Example empty_names_without_snapd :
  (add (static_env (fun _ => false) [] (fun _ _ => Response [])
                   (fun _ => Exit0 EmptyString))
       (inr []) (inr Latest) "latest" false (mkSt (mk_Cache None) [])).1 =
    Raise (SnapError [PyStr "snapd is not installed or not in /usr/bin"]).
Proof. reflexivity. Qed.

(** ** Batches *)

Lemma ensure_state_ret env state classic channel (st : SnapSt) :
  (Snap.ensure env state classic channel st).1 = Ret tt ->
  _state (self (Snap.ensure env state classic channel st).2) = state.
Proof.
  rewrite ensure_eq; cbv zeta.
  destruct (state_is (_state (self st)) state) eqn:Hst; simpl.
  - intros _. by apply state_is_true.
  - destruct (check_output env (trace st) _); simpl; [done|discriminate].
Qed.

Lemma ensure_state_keep env state classic channel (st : SnapSt) :
  _state (self st) = state ->
  _state (self (Snap.ensure env state classic channel st).2) = state.
Proof.
  intros Hst. rewrite ensure_eq; cbv zeta.
  apply state_is_true in Hst as Hb. rewrite Hb. exact Hst.
Qed.

(** [_load_info] does not touch the cache it is called on. *)
Lemma load_info_self env name (st : St SnapCache) :
  self (SnapCache._load_info env name st).2 = self st.
Proof.
  destruct st as [c tr].
  unfold SnapCache._load_info, SnapClient.get_snap_information,
    SnapClient._request, on_trace, bind, dict_getitem, ret, raise; simpl.
  destruct (urlopen env tr "GET" "find" [("name", name)])
    as [[|info result]|code reason [body|descr]|reason]; simpl; try reflexivity.
  repeat (match goal with
          | |- context [match ?d !! ?k with _ => _ end] => destruct (d !! k)
          end; simpl; try reflexivity).
Qed.

(** What a lookup does to the cache: other names are left alone; a loaded
    name is returned as it is, without a trace; and a lookup that returns
    has the name loaded. *)
Lemma getitem_spec env s (c : SnapCache) tr :
  let '(r, st') := SnapCache.__getitem__ env s (mkSt c tr) in
  (forall n, n <> s -> _snap_map (self st') !! n = _snap_map c !! n) /\
  (forall snap, SnapCache.deref c s = Some snap ->
     r = Ret s /\ st' = mkSt c tr) /\
  (forall ref, r = Ret ref ->
     ref = s /\ is_Some (SnapCache.deref (self st') s)).
Proof.
  unfold SnapCache.__getitem__, SnapCache.deref, bind, gets, ret; simpl.
  destruct (_snap_map c !! s) as [[snap|]|] eqn:Hs; simpl.
  - rewrite Hs. split; [done|]. split; [done|].
    intros ref [= <-]. eauto.
  - unfold try_except, bind, SnapCache.setitem, set_self, modify.
    pose proof (load_info_self env s (mkSt c tr)) as Hself.
    destruct (SnapCache._load_info env s (mkSt c tr)) as [[snap|e] st1];
      simpl in *; subst.
    + split; [intros n Hn; by rewrite lookup_insert_ne|].
      split; [done|]. intros ref [= <-].
      rewrite lookup_insert_eq. eauto.
    + destruct e; simpl; (split; [done|]); (split; [done|]); discriminate.
  - unfold try_except, bind, SnapCache.setitem, set_self, modify.
    pose proof (load_info_self env s (mkSt c tr)) as Hself.
    destruct (SnapCache._load_info env s (mkSt c tr)) as [[snap|e] st1];
      simpl in *; subst.
    + split; [intros n Hn; by rewrite lookup_insert_ne|].
      split; [done|]. intros ref [= <-].
      rewrite lookup_insert_eq. eauto.
    + destruct e; simpl; (split; [done|]); (split; [done|]); discriminate.
Qed.

Lemma wrap_branches env state channel classic ref :
  (if state_is state Absent
   then on_cache (SnapCache.on_snap ref (Snap.ensure env Absent false EmptyString))
   else on_cache (SnapCache.on_snap ref (Snap.ensure env state classic channel)))
  = on_cache (SnapCache.on_snap ref
      (Snap.ensure env state
         (if state_is state Absent then false else classic)
         (if state_is state Absent then EmptyString else channel))).
Proof.
  destruct (state_is state Absent) eqn:Hs; [|reflexivity].
  apply state_is_true in Hs. by subst.
Qed.

(** The loop body in one equation: the lookup, then [ensure] on the record
    found, written back under its key. *)
Lemma wrap_one_eq env state channel classic s snaps (st : St _Cache) :
  _wrap_one env state channel classic s snaps st =
    let failed := (Ret (snaps.1, (snaps.2 ++ [s])%list)) in
    let handle e st' :=
      match e with
      | SnapError _ | SnapNotFoundError _ => (failed, st')
      | _ => (Raise e, st')
      end in
    match _cache (self st) with
    | None => (Raise (TypeError "'NoneType' object is not subscriptable"), st)
    | Some c =>
        let '(r, cst) := SnapCache.__getitem__ env s (mkSt c (trace st)) in
        let st1 := mkSt (mk_Cache (Some (self cst))) (trace cst) in
        match r with
        | Raise e => handle e st1
        | Ret ref =>
            match SnapCache.deref (self cst) ref with
            | None => (Raise (KeyError ref), st1)
            | Some snap =>
                let '(r2, sst) :=
                  Snap.ensure env state
                    (if state_is state Absent then false else classic)
                    (if state_is state Absent then EmptyString else channel)
                    (mkSt snap (trace cst)) in
                let st2 :=
                  mkSt (mk_Cache (Some (mkSnapCache
                          (<[ref := Some (self sst)]> (_snap_map (self cst))))))
                       (trace sst) in
                match r2 with
                | Ret _ => (Ret ((snaps.1 ++ [ref])%list, snaps.2), st2)
                | Raise e => handle e st2
                end
            end
        end
    end.
Proof.
  cbv zeta.
  unfold _wrap_one, try_except, bind, _Cache_getitem.
  unfold on_cache at 1. unfold on_field at 1.
  destruct st as [[[c|]] tr]; simpl; [|reflexivity].
  destruct (SnapCache.__getitem__ env s (mkSt c tr)) as [[ref|e] cst]; simpl.
  - rewrite wrap_branches.
    unfold on_cache, SnapCache.on_snap, on_field; simpl.
    destruct (SnapCache.deref (self cst) ref) as [snap|]; simpl; [|reflexivity].
    destruct (Snap.ensure env state _ _ _) as [[[]|e] sst]; simpl;
      [reflexivity|].
    destruct e; reflexivity.
  - destruct e; reflexivity.
Qed.

(** The loop body on arbitrary lists, from its outcome. *)
Lemma wrap_one_outcome env state channel classic s snaps (st : St _Cache) :
  _wrap_one env state channel classic s snaps st =
    match name_outcome env state channel classic s st with
    | (Succeeded, st') => (Ret ((snaps.1 ++ [s])%list, snaps.2), st')
    | (Failed, st') => (Ret (snaps.1, (snaps.2 ++ [s])%list), st')
    | (Escaped e, st') => (Raise e, st')
    end.
Proof.
  unfold name_outcome. rewrite !wrap_one_eq. cbv zeta.
  destruct (_cache (self st)) as [c|]; [|reflexivity].
  pose proof (getitem_spec env s c (trace st)) as Hget.
  destruct (SnapCache.__getitem__ env s (mkSt c (trace st))) as [[ref|e] cst].
  - destruct Hget as (_ & _ & Hret).
    destruct (Hret ref eq_refl) as [-> _].
    destruct (SnapCache.deref (self cst) s) as [snap|]; [|reflexivity].
    destruct (Snap.ensure env state _ _ _) as [[[]|e] sst]; [reflexivity|].
    destruct e; reflexivity.
  - destruct e; reflexivity.
Qed.

Lemma settled_insert_ne state (m : gmap string (option Snap)) s v n :
  n <> s ->
  settled state (mk_Cache (Some (mkSnapCache (<[s := v]> m)))) n <->
  settled state (mk_Cache (Some (mkSnapCache m))) n.
Proof.
  intros Hn. unfold settled, cached, SnapCache.deref; simpl.
  by rewrite lookup_insert_ne.
Qed.

(** One round of the loop keeps every record that already is in the
    requested state in that state, and a name that succeeded is in it. *)
Lemma name_outcome_settled env state channel classic s (st : St _Cache) n :
  (settled state (self st) n ->
   settled state (self (name_outcome env state channel classic s st).2) n) /\
  ((name_outcome env state channel classic s st).1 = Succeeded ->
   settled state (self (name_outcome env state channel classic s st).2) s).
Proof.
  unfold name_outcome. rewrite wrap_one_eq. cbv zeta.
  destruct st as [[[c|]] tr]; simpl; [|split; [done|discriminate]].
  pose proof (getitem_spec env s c tr) as Hget.
  destruct (SnapCache.__getitem__ env s (mkSt c tr)) as [[ref|e] cst].
  - destruct Hget as (Hother & Hhit & Hret).
    destruct (Hret ref eq_refl) as [-> [snap Hsnap]].
    rewrite Hsnap.
    set (cl := if state_is state Absent then false else classic).
    set (ch := if state_is state Absent then EmptyString else channel).
    pose proof (ensure_state_ret env state cl ch (mkSt snap (trace cst))) as Hr.
    pose proof (ensure_state_keep env state cl ch (mkSt snap (trace cst))) as Hk.
    assert (Hpres : forall sst : SnapSt,
      (_state snap = state -> _state (self sst) = state) ->
      settled state (mk_Cache (Some c)) n ->
      settled state
        (mk_Cache (Some (mkSnapCache
           (<[s := Some (self sst)]> (_snap_map (self cst)))))) n).
    { intros sst Hkeep Hn. destruct (decide (n = s)) as [->|Hne].
      - destruct Hn as (snap0 & Hc0 & Hs0). unfold cached in Hc0; simpl in Hc0.
        destruct (Hhit snap0 Hc0) as [_ ->]. simpl in Hsnap.
        assert (snap0 = snap) as -> by congruence.
        exists (self sst). split; [|by apply Hkeep].
        unfold cached, SnapCache.deref; simpl. by rewrite lookup_insert_eq.
      - apply settled_insert_ne; [done|].
        destruct Hn as (snap0 & Hc0 & Hs0). exists snap0. split; [|done].
        unfold cached, SnapCache.deref in *; simpl in *.
        by rewrite Hother. }
    destruct (Snap.ensure env state cl ch (mkSt snap (trace cst)))
      as [[[]|e] sst]; simpl in *.
    + split; [by apply Hpres|]. intros _.
      exists (self sst). split; [|by apply Hr].
      unfold cached, SnapCache.deref; simpl. by rewrite lookup_insert_eq.
    + destruct e; simpl; (split; [by apply Hpres|discriminate]).
  - destruct Hget as (Hother & Hhit & _).
    assert (Hpres : settled state (mk_Cache (Some c)) n ->
                    settled state (mk_Cache (Some (self cst))) n).
    { intros (snap0 & Hc0 & Hs0). destruct (decide (n = s)) as [->|Hne].
      - unfold cached in Hc0; simpl in Hc0.
        destruct (Hhit snap0 Hc0) as [? _]. discriminate.
      - exists snap0. split; [|done].
        unfold cached, SnapCache.deref in *; simpl in *. by rewrite Hother. }
    destruct e; simpl; (split; [exact Hpres|discriminate]).
Qed.

(** A run of names that all succeed moves them to the list of successes and
    leaves their records, and all records settled before, in the requested
    state. *)
Lemma wrap_loop_succeeded env state channel classic l1 :
  forall rest outs snaps (st : St _Cache),
    outcomes env state channel classic (l1 ++ rest) st =
      (replicate (List.length l1) Succeeded ++ outs)%list ->
    exists st1,
      _wrap_loop env state channel classic (l1 ++ rest) snaps st =
        _wrap_loop env state channel classic rest
          ((snaps.1 ++ l1)%list, snaps.2) st1 /\
      outcomes env state channel classic rest st1 = outs /\
      (forall n, n ∈ l1 \/ settled state (self st) n ->
                 settled state (self st1) n).
Proof.
  induction l1 as [|s l1 IH]; intros rest outs snaps st Hout; simpl in *.
  - exists st. rewrite app_nil_r. destruct snaps as [succ fail]; simpl.
    split; [done|]. split; [done|].
    intros n [Hn|Hn]; [by apply elem_of_nil in Hn|done].
  - pose proof (name_outcome_settled env state channel classic s st) as Hset.
    unfold bind at 1. rewrite wrap_one_outcome.
    destruct (name_outcome env state channel classic s st) as [o st'].
    injection Hout as -> Hout. simpl in Hset.
    destruct (IH rest outs ((snaps.1 ++ [s])%list, snaps.2) st' Hout)
      as (st1 & Hloop & Hrest & Hset1).
    exists st1. simpl in Hloop. rewrite <- app_assoc in Hloop. simpl in Hloop.
    split; [exact Hloop|]. split; [exact Hrest|].
    intros n Hn. apply Hset1.
    destruct Hn as [Hn|Hn].
    + apply elem_of_cons in Hn as [->|Hn]; [|by left].
      right. by apply (Hset s).
    + right. by apply (Hset n).
Qed.

(** C7: in a batch in which one name fails and every other name succeeds,
    [_wrap_snap_operations] raises one [SnapError] whose message names the
    failed name and no other, and the records of all other names are in
    the requested state in the process-wide cache afterwards.  (A name
    fails when its lookup raises [SnapNotFoundError] or its action raises
    [SnapError].) *)
Theorem C7_batch_one_failure env state channel classic l1 f l2
    (st : St _Cache) :
  outcomes env state channel classic (l1 ++ f :: l2) st =
    (replicate (List.length l1) Succeeded
       ++ Failed :: replicate (List.length l2) Succeeded)%list ->
  let '(r, st') :=
    _wrap_snap_operations env (l1 ++ f :: l2) state channel classic st in
  r = Raise (SnapError
               [PyStr ("Failed to install or refresh snap(s): " ++ f)]) /\
  forall n, n ∈ (l1 ++ l2)%list -> settled state (self st') n.
Proof.
  intros Hout.
  destruct (wrap_loop_succeeded env state channel classic l1 (f :: l2)
              _ ([], []) st Hout) as (st1 & Hloop1 & Hout1 & Hset1).
  simpl in Hout1, Hloop1.
  pose proof (name_outcome_settled env state channel classic f st1) as Hsetf.
  unfold bind at 1 in Hloop1. rewrite wrap_one_outcome in Hloop1.
  destruct (name_outcome env state channel classic f st1) as [o st2].
  injection Hout1 as -> Hout2. simpl in Hsetf, Hloop1.
  rewrite <- (app_nil_r l2) in Hout2 at 1.
  rewrite <- (app_nil_r (replicate _ _)) in Hout2.
  destruct (wrap_loop_succeeded env state channel classic l2 [] [] (l1, [f])
              st2 Hout2) as (st3 & Hloop3 & _ & Hset3).
  rewrite app_nil_r in Hloop3. simpl in Hloop3.
  unfold _wrap_snap_operations, bind at 1.
  rewrite Hloop1, Hloop3. unfold ret; simpl.
  split; [reflexivity|].
  intros n Hn. apply Hset3.
  apply elem_of_app in Hn as [Hn|Hn]; [right|by left].
  apply (Hsetf n). apply Hset1. by left.
Qed.

Lemma C7_batch_one_failure_witness :
  outcomes env_b_fails Absent EmptyString false (["a"] ++ "b" :: [])
           (mkSt cache_a_b []) =
    (replicate (List.length ["a"]) Succeeded
       ++ Failed :: replicate (List.length (@nil string)) Succeeded)%list /\
  let '(r, st') :=
    _wrap_snap_operations env_b_fails (["a"] ++ "b" :: []) Absent EmptyString
      false (mkSt cache_a_b []) in
  r = Raise (SnapError
               [PyStr ("Failed to install or refresh snap(s): " ++ "b")]) /\
  forall n, n ∈ (["a"] ++ [])%list -> settled Absent (self st') n.
Proof.
  split; [vm_compute; reflexivity|].
  apply (C7_batch_one_failure env_b_fails Absent EmptyString false
           ["a"] "b" [] (mkSt cache_a_b [])).
  vm_compute; reflexivity.
Defined.

(** The same batch, evaluated: ["a"] has been removed and is [Absent] in
    the cache, ["b"] is still [Latest], and both commands have run. *)
Example batch_a_b_evaluated :
  let '(r, st') :=
    remove env_b_fails (inr ["a"; "b"]) (mkSt cache_a_b []) in
  r = Raise (SnapError [PyStr "Failed to install or refresh snap(s): b"]) /\
  _state <$> cached (self st') "a" = Some Absent /\
  _state <$> cached (self st') "b" = Some Latest /\
  commands (trace st') = [["snap"; "remove"; "a"]; ["snap"; "remove"; "b"]].
Proof. vm_compute. repeat split. Qed.

(** The missed case of the lookup seen from a batch: the store answers the
    find request for an unknown name with an empty list, and [add] lets an
    [IndexError] escape where its documentation promises [SnapError]. *)
Example add_unknown_name_escapes :
  (add (bare_env (fun _ => true)) (inr ["foo"]) (inr Latest) "latest" false
       (mkSt (mk_Cache None) [])).1 =
    Raise (IndexError "list index out of range").
Proof. vm_compute. reflexivity. Qed.

(** * Further properties of the module *)

(** ** Records *)

Lemma ensure_fields env state classic channel (st : SnapSt) :
  _name (self (Snap.ensure env state classic channel st).2) = _name (self st) /\
  _channel (self (Snap.ensure env state classic channel st).2) = _channel (self st) /\
  _revision (self (Snap.ensure env state classic channel st).2) = _revision (self st).
Proof.
  rewrite ensure_eq; cbv zeta.
  destruct (state_is (_state (self st)) state); [done|].
  destruct (check_output env (trace st) _); done.
Qed.

Lemma ensure_calls_fields env calls : forall st : SnapSt,
  _name (self (ensure_calls env calls st)) = _name (self st) /\
  _channel (self (ensure_calls env calls st)) = _channel (self st) /\
  _revision (self (ensure_calls env calls st)) = _revision (self st).
Proof.
  induction calls as [|[[state classic] channel] calls IH]; intros st; simpl;
    [done|].
  destruct (IH (Snap.ensure env state classic channel st).2) as (-> & -> & ->).
  apply ensure_fields.
Qed.

(** X1: [get], [set], [unset], [_install], [_refresh] and [_remove] leave
    the record as it is, whether the command succeeds or not; [ensure]
    changes state and confinement only: name, channel and revision are the
    same after any series of calls, so a snap installed from another
    channel still reports the channel it was created with. *)
Theorem record_fields_fixed env (st : SnapSt) :
  (forall op, self (run_op env op st).2 = self st) /\
  (forall calls,
     _name (self (ensure_calls env calls st)) = _name (self st) /\
     _channel (self (ensure_calls env calls st)) = _channel (self st) /\
     _revision (self (ensure_calls env calls st)) = _revision (self st)).
Proof.
  split; [|intros calls; apply ensure_calls_fields].
  intros op. destruct st as [s tr].
  destruct op; simpl;
    unfold Snap.get, Snap.set, Snap.unset, Snap._install, Snap._refresh,
      Snap._remove, Snap._snap, bind, gets, ret; simpl;
    destruct (check_output env tr _); reflexivity.
Qed.

(** X2: a record compares equal to what it was, and hashes the same, after
    any series of [ensure] calls: [__eq__] and [__hash__] look at name and
    revision only, which [ensure] never writes. *)
Theorem record_equal_across_ensure env hash calls (st : SnapSt) :
  Snap.__eq__ (self (ensure_calls env calls st)) (inl (self st)) = true /\
  Snap.__hash__ hash (self (ensure_calls env calls st)) =
    Snap.__hash__ hash (self st).
Proof.
  destruct (ensure_calls_fields env calls st) as (Hn & _ & Hr).
  unfold Snap.__eq__, Snap.__hash__. rewrite Hn, Hr.
  split; [|reflexivity].
  by rewrite !String.eqb_refl.
Qed.

(** X3: when [ensure] returns, [present] holds exactly for the requested
    states [Present] and [Latest], and [latest] exactly for [Latest]. *)
Theorem present_latest_after_ensure env state classic channel (st : SnapSt) :
  (Snap.ensure env state classic channel st).1 = Ret tt ->
  Snap.present (self (Snap.ensure env state classic channel st).2) =
    match state with Present | Latest => true | _ => false end /\
  Snap.latest (self (Snap.ensure env state classic channel st).2) =
    match state with Latest => true | _ => false end.
Proof.
  intros Hret. apply ensure_state_ret in Hret.
  unfold Snap.present, Snap.latest. rewrite Hret.
  destruct state; done.
Qed.

Lemma present_latest_after_ensure_witness :
  (Snap.ensure (bare_env (fun _ => true)) Absent false EmptyString
     (mkSt foo_latest [])).1 = Ret tt /\
  Snap.present (self (Snap.ensure (bare_env (fun _ => true)) Absent false
                        EmptyString (mkSt foo_latest [])).2) = false /\
  Snap.latest (self (Snap.ensure (bare_env (fun _ => true)) Absent false
                       EmptyString (mkSt foo_latest [])).2) = false.
Proof.
  split; [reflexivity|].
  apply (present_latest_after_ensure (bare_env (fun _ => true)) Absent false
           EmptyString (mkSt foo_latest [])).
  reflexivity.
Defined.

Lemma with_state_same (s : Snap) : with_state (_state s) s = s.
Proof. by destruct s. Qed.

(** X4: assigning to the [state] property is [ensure] with the default
    arguments when the state changes, and does nothing at all, not even to
    the confinement, when it does not; the assignment that follows the call
    of [ensure] in the setter never changes anything. *)
Theorem state_setter_is_ensure env state (st : SnapSt) :
  Snap.state_setter env state st =
    if state_is (_state (self st)) state then (Ret tt, st)
    else Snap.ensure env state false EmptyString st.
Proof.
  unfold Snap.state_setter, bind, gets, modify; simpl.
  destruct (state_is (_state (self st)) state) eqn:Hst; simpl.
  - apply state_is_true in Hst. rewrite <- Hst, with_state_same.
    by destruct st.
  - pose proof (ensure_state_ret env state false EmptyString st) as Hret.
    destruct (Snap.ensure env state false EmptyString st) as [[[]|e] st'];
      simpl in *; [|reflexivity].
    rewrite <- (Hret eq_refl), with_state_same. by destruct st'.
Qed.

(** X5: a call of [ensure] without [classic] erases every confinement
    other than ["classic"]: a strictly confined record reports the empty
    string afterwards, whether a command ran or not and whether the call
    returned or raised. *)
Theorem ensure_erases_strict env state channel (st : SnapSt) :
  _confinement (self st) <> "classic" ->
  _confinement (self (Snap.ensure env state false channel st).2) = EmptyString.
Proof.
  intros Hc. rewrite ensure_confinement. simpl.
  destruct (String.eqb_spec (_confinement (self st)) "classic"); done.
Qed.

Lemma ensure_erases_strict_witness :
  _confinement (self (mkSt foo_latest [])) <> "classic" /\
  _confinement
    (self (Snap.ensure (bare_env (fun _ => true)) Latest false "stable"
             (mkSt foo_latest [])).2) = EmptyString.
Proof.
  split; [simpl; discriminate|].
  apply (ensure_erases_strict (bare_env (fun _ => true)) Latest "stable"
           (mkSt foo_latest [])).
  simpl. discriminate.
Defined.

(** X6: whatever is asked of [ensure], it runs at most one command per
    call, and every command is [snap remove] or [snap install] on the
    record's own name: [_refresh] is never reached, not even by
    [ensure(Latest)] on a snap that is present. *)
Theorem ensure_never_refreshes env calls : forall st : SnapSt,
  exists evs,
    trace (ensure_calls env calls st) = (trace st ++ evs)%list /\
    forallb (ensure_event (_name (self st))) evs = true /\
    (List.length evs <= List.length calls)%nat.
Proof.
  induction calls as [|[[state classic] channel] calls IH]; intros st; simpl.
  - exists []. by rewrite app_nil_r.
  - destruct (IH (Snap.ensure env state classic channel st).2)
      as (evs & Htr & Hevs & Hlen).
    destruct (ensure_fields env state classic channel st) as (Hn & _ & _).
    rewrite Hn in Hevs. rewrite Htr. clear Htr IH.
    rewrite ensure_eq; cbv zeta.
    destruct (state_is (_state (self st)) state); simpl.
    + exists evs. split; [done|]. split; [done|]. lia.
    + set (cmd := ensure_cmd state channel (sticky classic (self st))).
      assert (Hcmd : ensure_event (_name (self st)) (CheckOutput cmd) = true).
      { unfold cmd, ensure_cmd, ensure_event.
        destruct (negb _); simpl; by rewrite String.eqb_refl. }
      exists (CheckOutput cmd :: evs).
      split; [|split; [cbn [forallb]; by rewrite Hcmd|simpl; lia]].
      destruct (check_output env (trace st) cmd); simpl;
        by rewrite <- app_assoc.
Qed.

(** ** Lookups in a cache *)

(** [_load_info] in one equation. *)
Lemma load_info_eq env name (c : SnapCache) tr :
  SnapCache._load_info env name (mkSt c tr) =
    let st' := mkSt c (tr ++ [find_request name]) in
    match urlopen env tr "GET" "find" [("name", name)] with
    | Response [] => (Raise (IndexError "list index out of range"), st')
    | Response (info :: _) =>
        match snap_of_info Available info with
        | inl k => (Raise (KeyError k), st')
        | inr snap => (Ret snap, st')
        end
    | HTTPError code reason (inl body) =>
        (Raise (SnapAPIError body code reason EmptyString), st')
    | HTTPError code reason (inr descr) =>
        (Raise (SnapAPIError ∅ code reason descr), st')
    | URLError reason =>
        (Raise (SnapAPIError ∅ 500 "Not found" reason), st')
    end.
Proof.
  unfold SnapCache._load_info, SnapClient.get_snap_information,
    SnapClient._request, on_trace, bind, dict_getitem, ret, raise,
    snap_of_info, find_request; simpl.
  destruct (urlopen env tr "GET" "find" [("name", name)])
    as [[|info result]|code reason [body|descr]|reason]; simpl; try reflexivity.
  repeat (match goal with
          | |- context [match ?d !! ?k with _ => _ end] => destruct (d !! k)
          end; simpl; try reflexivity).
Qed.

(** [__getitem__] in one equation. *)
Lemma getitem_eq env name (c : SnapCache) tr :
  SnapCache.__getitem__ env name (mkSt c tr) =
    match SnapCache.deref c name with
    | Some _ => (Ret name, mkSt c tr)
    | None =>
        let tr' := (tr ++ [find_request name])%list in
        match urlopen env tr "GET" "find" [("name", name)] with
        | Response [] =>
            (Raise (IndexError "list index out of range"), mkSt c tr')
        | Response (info :: _) =>
            match snap_of_info Available info with
            | inl k => (Raise (KeyError k), mkSt c tr')
            | inr snap =>
                (Ret name,
                 mkSt (mkSnapCache (<[name := Some snap]> (_snap_map c))) tr')
            end
        | _ =>
            (Raise (SnapNotFoundError
                      [PyStr ("Snap '" ++ name ++ "' not found!")]),
             mkSt c tr')
        end
    end.
Proof.
  unfold SnapCache.__getitem__, SnapCache.deref, bind, gets, ret; simpl.
  destruct (_snap_map c !! name) as [[snap|]|]; simpl; [reflexivity| |];
    unfold try_except, bind; rewrite load_info_eq; cbv zeta;
    (destruct (urlopen env tr "GET" "find" [("name", name)])
       as [[|info result]|code reason [body|descr]|reason]; simpl;
     try reflexivity;
     destruct (snap_of_info Available info); reflexivity).
Qed.



(** X8: a lookup of a name that is not loaded, answered by the daemon with
    at least one complete result, sends one find request and stores a
    record in state [Available], built from the first result, under the
    name that was asked for (whatever name the result carries, and
    whatever follows it in the list); that name is what the lookup
    returns a reference to. *)
Theorem lookup_miss_loads_available env name (c : SnapCache) tr info rest snap :
  SnapCache.deref c name = None ->
  urlopen env tr "GET" "find" [("name", name)] = Response (info :: rest) ->
  snap_of_info Available info = inr snap ->
  SnapCache.__getitem__ env name (mkSt c tr) =
    (Ret name,
     mkSt (mkSnapCache (<[name := Some snap]> (_snap_map c)))
          (tr ++ [find_request name])) /\
  _state snap = Available /\
  info !! "name" = Some (_name snap) /\
  info !! "channel" = Some (_channel snap) /\
  info !! "revision" = Some (_revision snap) /\
  info !! "confinement" = Some (_confinement snap).
Proof.
  intros Hmiss Hfind Hinfo. rewrite getitem_eq, Hmiss. cbv zeta.
  rewrite Hfind, Hinfo. split; [reflexivity|].
  unfold snap_of_info in Hinfo.
  destruct (info !! "name"); [|discriminate].
  destruct (info !! "channel"); [|discriminate].
  destruct (info !! "revision"); [|discriminate].
  destruct (info !! "confinement"); [|discriminate].
  injection Hinfo as <-. done.
Qed.

Lemma lookup_miss_loads_available_witness :
  SnapCache.deref (mkSnapCache ∅) "bar" = None /\
  urlopen (store_env [] [bar_available] (fun _ => true)) [] "GET" "find"
          [("name", "bar")] = Response (info_of bar_available :: []) /\
  snap_of_info Available (info_of bar_available) = inr bar_available /\
  SnapCache.__getitem__ (store_env [] [bar_available] (fun _ => true)) "bar"
    (mkSt (mkSnapCache ∅) []) =
    (Ret "bar",
     mkSt (mkSnapCache (<["bar" := Some bar_available]> ∅))
          ([] ++ [find_request "bar"])) /\
  _state bar_available = Available /\
  info_of bar_available !! "name" = Some (_name bar_available) /\
  info_of bar_available !! "channel" = Some (_channel bar_available) /\
  info_of bar_available !! "revision" = Some (_revision bar_available) /\
  info_of bar_available !! "confinement" = Some (_confinement bar_available).
Proof.
  split; [reflexivity|]. split; [reflexivity|]. split; [reflexivity|].
  apply (lookup_miss_loads_available
           (store_env [] [bar_available] (fun _ => true)) "bar"
           (mkSnapCache ∅) [] (info_of bar_available) [] bar_available);
    reflexivity.
Defined.

(** X9: a lookup that returned can be repeated at no cost: the second
    lookup of the name returns the same reference, sends nothing to the
    daemon and leaves the cache as it is. *)
Theorem lookup_twice env name (c : SnapCache) tr ref :
  (SnapCache.__getitem__ env name (mkSt c tr)).1 = Ret ref ->
  SnapCache.__getitem__ env name
    (SnapCache.__getitem__ env name (mkSt c tr)).2 =
    (Ret ref, (SnapCache.__getitem__ env name (mkSt c tr)).2).
Proof.
  rewrite (getitem_eq env name c tr).
  destruct (SnapCache.deref c name) as [snap|] eqn:Hc; simpl.
  - intros [= <-]. by rewrite getitem_eq, Hc.
  - destruct (urlopen env tr "GET" "find" [("name", name)])
      as [[|info result]|code reason body|reason]; simpl; try discriminate.
    destruct (snap_of_info Available info) as [k|snap]; simpl;
      [discriminate|].
    intros [= <-]. rewrite getitem_eq.
    unfold SnapCache.deref; simpl. by rewrite lookup_insert_eq.
Qed.

Lemma lookup_twice_witness :
  (SnapCache.__getitem__ (store_env [] [bar_available] (fun _ => true)) "bar"
     (mkSt (mkSnapCache ∅) [])).1 = Ret "bar" /\
  SnapCache.__getitem__ (store_env [] [bar_available] (fun _ => true)) "bar"
    (SnapCache.__getitem__ (store_env [] [bar_available] (fun _ => true)) "bar"
       (mkSt (mkSnapCache ∅) [])).2 =
    (Ret "bar",
     (SnapCache.__getitem__ (store_env [] [bar_available] (fun _ => true)) "bar"
        (mkSt (mkSnapCache ∅) [])).2).
Proof.
  split; [reflexivity|].
  apply (lookup_twice (store_env [] [bar_available] (fun _ => true)) "bar"
           (mkSnapCache ∅) [] "bar").
  reflexivity.
Defined.

(** X10: a lookup only ever writes the entry of the name it is asked for,
    and only while that name is not loaded: a loaded record is returned
    from the cache without any request, so it is never refreshed from the
    daemon; every other entry is the same afterwards; and at most one
    request is sent. *)
Theorem lookup_is_local env name (c : SnapCache) tr :
  (forall n, n <> name ->
     _snap_map (self (SnapCache.__getitem__ env name (mkSt c tr)).2) !! n =
       _snap_map c !! n) /\
  (is_Some (SnapCache.deref c name) ->
     SnapCache.__getitem__ env name (mkSt c tr) = (Ret name, mkSt c tr)) /\
  (issued (SnapCache.__getitem__ env name) (mkSt c tr) = [] \/
   issued (SnapCache.__getitem__ env name) (mkSt c tr) = [find_request name]).
Proof.
  unfold issued. rewrite getitem_eq.
  destruct (SnapCache.deref c name) as [snap|] eqn:Hc.
  - split; [done|]. split; [done|]. left. simpl. by rewrite drop_all.
  - split; [|split; [by intros [? ?]|right]].
    + intros n Hn. cbv zeta.
      destruct (urlopen env tr "GET" "find" [("name", name)])
        as [[|info result]|code reason body|reason]; simpl; try done.
      destruct (snap_of_info Available info); simpl; [done|].
      by rewrite lookup_insert_ne.
    + cbv zeta.
      destruct (urlopen env tr "GET" "find" [("name", name)])
        as [[|info result]|code reason body|reason]; simpl;
        try (by rewrite drop_app_length).
      destruct (snap_of_info Available info); simpl;
        by rewrite drop_app_length.
Qed.

(** [on_snap] in one equation. *)
Lemma on_snap_eq {A} ref (m : M SnapSt A) (c : SnapCache) tr :
  SnapCache.on_snap ref m (mkSt c tr) =
    match SnapCache.deref c ref with
    | None => (Raise (KeyError ref), mkSt c tr)
    | Some snap =>
        ((m (mkSt snap tr)).1,
         mkSt (mkSnapCache
                 (<[ref := Some (self (m (mkSt snap tr)).2)]> (_snap_map c)))
              (trace (m (mkSt snap tr)).2))
    end.
Proof.
  unfold SnapCache.on_snap, on_field; simpl.
  destruct (SnapCache.deref c ref); [|reflexivity].
  by destruct (m _).
Qed.

(** X11: what [ensure] did to a record reached through the cache is what
    the next lookup finds: after [ensure] returned, a lookup of the name
    returns the reference without any request, and the record behind it
    is in the requested state. *)
Theorem ensure_visible_to_lookup env ref (c : SnapCache) tr
    state classic channel :
  is_Some (SnapCache.deref c ref) ->
  (SnapCache.on_snap ref (Snap.ensure env state classic channel)
     (mkSt c tr)).1 = Ret tt ->
  SnapCache.__getitem__ env ref
    (SnapCache.on_snap ref (Snap.ensure env state classic channel)
       (mkSt c tr)).2 =
    (Ret ref,
     (SnapCache.on_snap ref (Snap.ensure env state classic channel)
        (mkSt c tr)).2) /\
  _state <$>
    SnapCache.deref
      (self (SnapCache.on_snap ref (Snap.ensure env state classic channel)
               (mkSt c tr)).2) ref = Some state.
Proof.
  intros [snap Hc]. rewrite on_snap_eq, Hc. simpl. intros Hret.
  rewrite getitem_eq. unfold SnapCache.deref; simpl.
  rewrite lookup_insert_eq. split; [reflexivity|]. simpl.
  by rewrite (ensure_state_ret _ _ _ _ _ Hret).
Qed.

Lemma ensure_visible_to_lookup_witness :
  is_Some (SnapCache.deref (mkSnapCache (<["foo" := Some foo_latest]> ∅)) "foo") /\
  (SnapCache.on_snap "foo"
     (Snap.ensure (bare_env (fun _ => true)) Absent false EmptyString)
     (mkSt (mkSnapCache (<["foo" := Some foo_latest]> ∅)) [])).1 = Ret tt /\
  SnapCache.__getitem__ (bare_env (fun _ => true)) "foo"
    (SnapCache.on_snap "foo"
       (Snap.ensure (bare_env (fun _ => true)) Absent false EmptyString)
       (mkSt (mkSnapCache (<["foo" := Some foo_latest]> ∅)) [])).2 =
    (Ret "foo",
     (SnapCache.on_snap "foo"
        (Snap.ensure (bare_env (fun _ => true)) Absent false EmptyString)
        (mkSt (mkSnapCache (<["foo" := Some foo_latest]> ∅)) [])).2) /\
  _state <$>
    SnapCache.deref
      (self (SnapCache.on_snap "foo"
               (Snap.ensure (bare_env (fun _ => true)) Absent false EmptyString)
               (mkSt (mkSnapCache (<["foo" := Some foo_latest]> ∅)) [])).2)
      "foo" = Some Absent.
Proof.
  split; [by eexists|]. split; [reflexivity|].
  apply (ensure_visible_to_lookup (bare_env (fun _ => true)) "foo"
           (mkSnapCache (<["foo" := Some foo_latest]> ∅)) []
           Absent false EmptyString); [by eexists|reflexivity].
Defined.

(** X12: after a lookup that returned, the name is a key of the cache, and
    the cache has grown by one entry if the name was no key before (not
    even a placeholder) and kept its size otherwise. *)
Theorem lookup_contains_len env name (c : SnapCache) tr ref :
  (SnapCache.__getitem__ env name (mkSt c tr)).1 = Ret ref ->
  SnapCache.__contains__
    (self (SnapCache.__getitem__ env name (mkSt c tr)).2) name = true /\
  SnapCache.__len__ (self (SnapCache.__getitem__ env name (mkSt c tr)).2) =
    if SnapCache.__contains__ c name then SnapCache.__len__ c
    else S (SnapCache.__len__ c).
Proof.
  rewrite getitem_eq. unfold SnapCache.__contains__, SnapCache.__len__.
  destruct (SnapCache.deref c name) as [snap|] eqn:Hc; simpl.
  - intros _. unfold SnapCache.deref in Hc.
    destruct (_snap_map c !! name) as [[s|]|] eqn:Hm; try discriminate.
    assert (Hs : is_Some (Some (Some s))) by (by eexists).
    by rewrite !(bool_decide_eq_true_2 _ Hs).
  - destruct (urlopen env tr "GET" "find" [("name", name)])
      as [[|info result]|code reason body|reason]; simpl; try discriminate.
    destruct (snap_of_info Available info) as [k|snap]; simpl;
      [discriminate|].
    intros _. rewrite lookup_insert_eq, map_size_insert.
    split; [by apply bool_decide_eq_true_2|].
    destruct (_snap_map c !! name) eqn:Hm; done.
Qed.

Lemma lookup_contains_len_witness :
  (SnapCache.__getitem__ (store_env [] [bar_available] (fun _ => true)) "bar"
     (mkSt (mkSnapCache (<["bar" := None]> ∅)) [])).1 = Ret "bar" /\
  SnapCache.__contains__
    (self (SnapCache.__getitem__ (store_env [] [bar_available] (fun _ => true))
             "bar" (mkSt (mkSnapCache (<["bar" := None]> ∅)) [])).2) "bar"
    = true /\
  SnapCache.__len__
    (self (SnapCache.__getitem__ (store_env [] [bar_available] (fun _ => true))
             "bar" (mkSt (mkSnapCache (<["bar" := None]> ∅)) [])).2) =
    if SnapCache.__contains__ (mkSnapCache (<["bar" := None]> ∅)) "bar"
    then SnapCache.__len__ (mkSnapCache (<["bar" := None]> ∅))
    else S (SnapCache.__len__ (mkSnapCache (<["bar" := None]> ∅))).
Proof.
  split; [reflexivity|].
  apply (lookup_contains_len (store_env [] [bar_available] (fun _ => true))
           "bar" (mkSnapCache (<["bar" := None]> ∅)) [] "bar").
  reflexivity.
Defined.

(** ** The construction of a cache *)

Section Closure.
Context {O : Type}.







Lemma keeps_ret (I : O -> Prop) {A} (a : A) : keeps I (ret (St:=St O) a).
Proof. by intros st. Qed.

Lemma keeps_raise (I : O -> Prop) {A} e :
  keeps I (raise (St:=St O) (A:=A) e).
Proof. by intros st. Qed.

Lemma keeps_on_trace (I : O -> Prop) {A}
    (m : list event -> res A * list event) : keeps I (on_trace m).
Proof. intros st HI. unfold on_trace. by destruct (m (trace st)). Qed.

Lemma keeps_set_self (I : O -> Prop) (f : O -> O) :
  (forall o, I o -> I (f o)) -> keeps I (set_self f).
Proof. intros Hf st HI. by apply Hf. Qed.

Lemma keeps_bind (I : O -> Prop) {A B} (m : M (St O) A)
    (k : A -> M (St O) B) :
  keeps I m -> (forall a, keeps I (k a)) -> keeps I (bind m k).
Proof.
  intros Hm Hk st HI. unfold bind.
  pose proof (Hm st HI) as Hm'.
  destruct (m st) as [[a|e] st1]; simpl in *; [by apply Hk|done].
Qed.

Lemma keeps_for_each (I : O -> Prop) {A} (l : list A)
    (body : A -> M (St O) unit) :
  (forall x, keeps I (body x)) -> keeps I (for_each l body).
Proof.
  intros Hbody. induction l as [|x l IH]; simpl.
  - apply keeps_ret.
  - apply keeps_bind; [apply Hbody|]. intros _. exact IH.
Qed.

Lemma keeps_dict_getitem (I : O -> Prop) d k :
  keeps I (dict_getitem (O:=O) d k).
Proof.
  unfold dict_getitem. destruct (d !! k); [apply keeps_ret|apply keeps_raise].
Qed.
End Closure.

(** The four reads of one object of a daemon answer, as one case
    distinction. *)
Lemma read_info {O A} state info (k : Snap -> M (St O) A) (st : St O) :
  (name <- dict_getitem info "name" ;;
   channel <- dict_getitem info "channel" ;;
   revision <- dict_getitem info "revision" ;;
   confinement <- dict_getitem info "confinement" ;;
   k (mkSnap name state channel revision confinement)) st =
    match snap_of_info state info with
    | inl key => (Raise (KeyError key), st)
    | inr snap => k snap st
    end.
Proof.
  unfold bind, dict_getitem, snap_of_info, ret, raise.
  repeat (match goal with
          | |- context [match ?d !! ?k with _ => _ end] => destruct (d !! k)
          end; simpl; try reflexivity).
Qed.


Lemma snap_of_info_fields state info snap :
  snap_of_info state info = inr snap ->
  _state snap = state /\ info !! "name" = Some (_name snap).
Proof.
  unfold snap_of_info.
  destruct (info !! "name"); [|discriminate].
  destruct (info !! "channel"); [|discriminate].
  destruct (info !! "revision"); [|discriminate].
  destruct (info !! "confinement"); [|discriminate].
  by intros [= <-].
Qed.

(** The body of the loop of [_load_installed_snaps] on one object. *)
Lemma load_installed_body (i : gmap string string) (st : St SnapCache) :
  (name <- dict_getitem i "name" ;;
   channel <- dict_getitem i "channel" ;;
   revision <- dict_getitem i "revision" ;;
   confinement <- dict_getitem i "confinement" ;;
   let snap := mkSnap name Latest channel revision confinement in
   SnapCache.setitem (_name snap) (Some snap)) st =
    match snap_of_info Latest i with
    | inl key => (Raise (KeyError key), st)
    | inr snap => SnapCache.setitem (_name snap) (Some snap) st
    end.
Proof.
  apply (read_info Latest i
           (fun snap => SnapCache.setitem (_name snap) (Some snap))).
Qed.


Lemma new_self env {O} (st : St O) : self (SnapCache.new env st).2 = self st.
Proof.
  unfold SnapCache.new. by destruct (SnapCache.__init__ env _) as [[[]|e] st'].
Qed.



(** X14: while the process-wide cache does not exist, a failure of its
    construction comes out of [add], [remove] and the bare [ensure] as it
    is, for any names (the empty list too) and arguments; no name is looked
    up, and the cache stays unconstructed, so that the next call tries the
    construction again. *)
Theorem construction_failure_escapes env (st : St _Cache) e
    snap_names (state : string + SnapState) (sstate channel : string)
    (classic : bool) :
  _cache (self st) = None ->
  (SnapCache.new env st).1 = Raise e ->
  add env snap_names state channel classic st
    = (Raise e, (SnapCache.new env st).2) /\
  remove env snap_names st = (Raise e, (SnapCache.new env st).2) /\
  ensure env snap_names sstate channel classic st
    = (Raise e, (SnapCache.new env st).2) /\
  _cache (self (SnapCache.new env st).2) = None.
Proof.
  intros Hc Hnew.
  pose proof (new_self env st) as Hself.
  unfold add, remove, ensure. rewrite !cache_init_eq, Hc.
  destruct (SnapCache.new env st) as [[c|e'] st']; simpl in *;
    [discriminate|].
  injection Hnew as ->. by rewrite Hself.
Qed.

Lemma construction_failure_escapes_witness :
  _cache (self (mkSt (mk_Cache None) [])) = None /\
  (SnapCache.new
     (static_env (fun _ => false) [] (fun _ _ => Response [])
                 (fun _ => Exit0 EmptyString))
     (mkSt (mk_Cache None) [])).1 =
    Raise (SnapError [PyStr "snapd is not installed or not in /usr/bin"]) /\
  add (static_env (fun _ => false) [] (fun _ _ => Response [])
                  (fun _ => Exit0 EmptyString))
      (inl "foo") (inr Latest) "latest" false (mkSt (mk_Cache None) [])
    = (Raise (SnapError [PyStr "snapd is not installed or not in /usr/bin"]),
       (SnapCache.new
          (static_env (fun _ => false) [] (fun _ _ => Response [])
                      (fun _ => Exit0 EmptyString))
          (mkSt (mk_Cache None) [])).2) /\
  remove (static_env (fun _ => false) [] (fun _ _ => Response [])
                     (fun _ => Exit0 EmptyString))
         (inl "foo") (mkSt (mk_Cache None) [])
    = (Raise (SnapError [PyStr "snapd is not installed or not in /usr/bin"]),
       (SnapCache.new
          (static_env (fun _ => false) [] (fun _ _ => Response [])
                      (fun _ => Exit0 EmptyString))
          (mkSt (mk_Cache None) [])).2) /\
  ensure (static_env (fun _ => false) [] (fun _ _ => Response [])
                     (fun _ => Exit0 EmptyString))
         (inl "foo") "present" "latest" false (mkSt (mk_Cache None) [])
    = (Raise (SnapError [PyStr "snapd is not installed or not in /usr/bin"]),
       (SnapCache.new
          (static_env (fun _ => false) [] (fun _ _ => Response [])
                      (fun _ => Exit0 EmptyString))
          (mkSt (mk_Cache None) [])).2) /\
  _cache (self (SnapCache.new
                  (static_env (fun _ => false) [] (fun _ _ => Response [])
                              (fun _ => Exit0 EmptyString))
                  (mkSt (mk_Cache None) [])).2) = None.
Proof.
  split; [reflexivity|]. split; [reflexivity|].
  apply (construction_failure_escapes
           (static_env (fun _ => false) [] (fun _ _ => Response [])
                       (fun _ => Exit0 EmptyString))
           (mkSt (mk_Cache None) [])
           (SnapError [PyStr "snapd is not installed or not in /usr/bin"])
           (inl "foo") (inr Latest) "present" "latest" false); reflexivity.
Defined.

Lemma named_latest_empty : named_latest (mkSnapCache ∅).
Proof. intros k snap; simpl. by rewrite lookup_empty. Qed.

Lemma init_keeps_named_latest env : keeps named_latest (SnapCache.__init__ env).
Proof.
  assert (Hnone : forall k, keeps named_latest (SnapCache.setitem k None)).
  { intros k. apply keeps_set_self. intros c Hc k' snap; simpl.
    destruct (decide (k = k')) as [->|Hne].
    - by rewrite lookup_insert_eq.
    - rewrite lookup_insert_ne by done. apply Hc. }
  unfold SnapCache.__init__, SnapCache.snapd_installed.
  apply keeps_bind; [apply keeps_on_trace|].
  intros [|]; simpl; [|apply keeps_raise].
  intros st _. revert st.
  assert (Hrest : keeps named_latest
    (b' <- os_path_isfile env (O:=SnapCache) "/usr/bin/snap" ;;
     if b' then (SnapCache._load_available_snaps env ;;;
                 SnapCache._load_installed_snaps env) else ret tt)).
  { apply keeps_bind; [apply keeps_on_trace|].
    intros [|]; [|apply keeps_ret].
    apply keeps_bind; [|intros _].
    - unfold SnapCache._load_available_snaps.
      apply keeps_bind; [apply keeps_on_trace|].
      intros [|]; simpl; [|apply keeps_ret].
      apply keeps_bind; [apply keeps_on_trace|].
      intros f. apply keeps_for_each. intros line.
      destruct (negb _); [apply Hnone|apply keeps_ret].
    - unfold SnapCache._load_installed_snaps.
      apply keeps_bind; [apply keeps_on_trace|].
      intros installed. apply keeps_for_each. intros i st Hst.
      rewrite load_installed_body.
      destruct (snap_of_info Latest i) as [k|snap] eqn:Hi; [done|].
      apply snap_of_info_fields in Hi as [Hstate _].
      intros k' snap'; simpl.
      destruct (decide (_name snap = k')) as [<-|Hne].
      + rewrite lookup_insert_eq. by intros [= <-].
      + rewrite lookup_insert_ne by done. apply Hst. }
  intros st. unfold bind at 1. simpl.
  apply Hrest. exact named_latest_empty.
Qed.

(** X15: in a cache that has just been constructed, every loaded record is
    in state [Latest] and is stored under its own name. *)
Theorem constructed_cache_named_latest env {O} (st : St O) c :
  (SnapCache.new env st).1 = Ret c -> named_latest c.
Proof.
  unfold SnapCache.new.
  pose proof (init_keeps_named_latest env (mkSt (mkSnapCache ∅) (trace st)))
    as Hinit.
  destruct (SnapCache.__init__ env _) as [[[]|e'] st']; simpl in *;
    [|discriminate].
  intros [= <-]. apply Hinit. exact named_latest_empty.
Qed.

Lemma constructed_cache_named_latest_witness :
  (SnapCache.new (store_env [foo_latest] [] (fun _ => true)) (mkSt tt [])).1
    = Ret (mkSnapCache (<["foo" := Some foo_latest]> ∅)) /\
  named_latest (mkSnapCache (<["foo" := Some foo_latest]> ∅)).
Proof.
  split; [reflexivity|].
  apply (constructed_cache_named_latest
           (store_env [foo_latest] [] (fun _ => true)) (mkSt tt [])).
  reflexivity.
Defined.

Lemma for_each_fold {O A} (f : O -> A -> O) (l : list A)
    (body : A -> M (St O) unit) :
  (forall x, x ∈ l -> forall st,
     body x st = (Ret tt, mkSt (f (self st) x) (trace st))) ->
  forall st,
    for_each l body st = (Ret tt, mkSt (foldl f (self st) l) (trace st)).
Proof.
  induction l as [|x l IH]; intros Hbody st; simpl.
  - by destruct st.
  - unfold bind. rewrite Hbody by (apply elem_of_cons; by left).
    rewrite IH; [done|]. intros y Hy. apply Hbody. apply elem_of_cons. by right.
Qed.

Lemma foldl_cache {A} (f : gmap string (option Snap) -> A -> gmap string (option Snap))
    (l : list A) : forall c,
  foldl (fun c x => mkSnapCache (f (_snap_map c) x)) c l =
    mkSnapCache (foldl f (_snap_map c) l).
Proof.
  induction l as [|x l IH]; intros c; simpl; [by destruct c|].
  by rewrite IH.
Qed.

Lemma foldl_index_lookup lines : forall m n,
  foldl index_step m lines !! n =
    if bool_decide (n <> EmptyString /\ n ∈ strip <$> lines)
    then Some None else m !! n.
Proof.
  induction lines as [|line lines IH]; intros m n; simpl.
  - rewrite bool_decide_eq_false_2; [done|]. intros [_ H].
    by apply elem_of_nil in H.
  - rewrite IH. unfold index_step.
    destruct (decide (n <> EmptyString /\ n ∈ strip <$> lines)) as [H|H].
    + rewrite !bool_decide_eq_true_2; [done| |done].
      destruct H. split; [done|]. apply elem_of_cons. by right.
    + rewrite (bool_decide_eq_false_2 _ H).
      destruct (String.eqb_spec (strip line) EmptyString) as [He|He]; simpl.
      * rewrite bool_decide_eq_false_2; [done|].
        intros [Hn Hin]. apply H. split; [done|].
        apply elem_of_cons in Hin as [->|Hin]; [by rewrite He in Hn|done].
      * destruct (decide (n = strip line)) as [->|Hne].
        -- rewrite lookup_insert_eq.
           rewrite bool_decide_eq_true_2; [done|]. split; [done|].
           apply elem_of_cons. by left.
        -- rewrite lookup_insert_ne by done.
           rewrite bool_decide_eq_false_2; [done|].
           intros [Hn Hin]. apply H. split; [done|].
           apply elem_of_cons in Hin as [->|Hin]; done.
Qed.

Lemma foldl_installed_lookup l : forall m n,
  (Exists (fun i => i !! "name" = Some n) l ->
   Forall (fun i => exists snap, snap_of_info Latest i = inr snap) l ->
   exists i snap, i ∈ l /\ snap_of_info Latest i = inr snap /\
                  _name snap = n /\
                  foldl installed_step m l !! n = Some (Some snap)) /\
  (~ Exists (fun i => i !! "name" = Some n) l ->
   Forall (fun i => exists snap, snap_of_info Latest i = inr snap) l ->
   foldl installed_step m l !! n = m !! n).
Proof.
  induction l as [|x l IH]; intros m n; simpl.
  - split; [by intros H%Exists_nil|done].
  - destruct (IH (installed_step m x) n) as [IHyes IHno].
    split.
    + intros Hex Hwf. apply Forall_cons in Hwf as [[snap Hx] Hwf].
      destruct (decide (Exists (fun i => i !! "name" = Some n) l)) as [Hl|Hl].
      * destruct (IHyes Hl Hwf) as (i & snap' & Hi & ?).
        exists i, snap'. split; [apply elem_of_cons; by right|done].
      * rewrite (IHno Hl Hwf).
        apply Exists_cons in Hex as [Hname|Hex]; [|done].
        destruct (snap_of_info_fields _ _ _ Hx) as [_ Hn].
        assert (_name snap = n) as <- by congruence.
        exists x, snap. split; [apply elem_of_cons; by left|].
        split; [done|]. split; [done|].
        unfold installed_step. by rewrite Hx, lookup_insert_eq.
    + intros Hex Hwf. apply Forall_cons in Hwf as [[snap Hx] Hwf].
      rewrite IHno; [|by intros ?; apply Hex; right|done].
      unfold installed_step. rewrite Hx.
      destruct (snap_of_info_fields _ _ _ Hx) as [_ Hn].
      apply lookup_insert_ne. intros <-. apply Hex. by left.
Qed.

(** The construction in a history-independent environment with snapd in
    place and a complete list of installed snaps. *)
Lemma new_static files index daemon runner installed {O} (st : St O) :
  files "/usr/bin/snap" = true ->
  daemon "snaps" [] = Response installed ->
  Forall (fun i => exists snap, snap_of_info Latest i = inr snap) installed ->
  (SnapCache.new (static_env files index daemon runner) st).1 =
    Ret (mkSnapCache
           (foldl installed_step
              (foldl index_step ∅
                 (if files "/var/cache/snapd/names" then index else []))
              installed)).
Proof.
  intros Hbin Hsnaps Hwf.
  unfold SnapCache.new, SnapCache.__init__, SnapCache.snapd_installed,
    os_path_isfile, on_trace, bind; simpl.
  rewrite Hbin; simpl.
  assert (Hinst : forall c tr,
    (SnapCache._load_installed_snaps (static_env files index daemon runner)
       (mkSt c tr)).1 = Ret tt /\
    self (SnapCache._load_installed_snaps
            (static_env files index daemon runner) (mkSt c tr)).2 =
      mkSnapCache (foldl installed_step (_snap_map c) installed)).
  { intros c tr.
    unfold SnapCache._load_installed_snaps, SnapClient.get_installed_snaps,
      SnapClient._request, on_trace, bind; simpl.
    rewrite Hsnaps; simpl.
    rewrite (for_each_fold
               (fun c i => mkSnapCache (installed_step (_snap_map c) i))).
    - simpl. by rewrite foldl_cache.
    - intros i Hi st'.
      etrans; [exact (load_installed_body i st')|].
      rewrite Forall_forall in Hwf. destruct (Hwf i Hi) as [snap Hsnap].
      unfold installed_step. by rewrite Hsnap. }
  unfold SnapCache._load_available_snaps, os_path_isfile, on_trace, bind;
    simpl.
  destruct (files "/var/cache/snapd/names"); simpl.
  - rewrite (for_each_fold
               (fun c line => mkSnapCache (index_step (_snap_map c) line))).
    + simpl. rewrite foldl_cache; simpl.
      match goal with
      | |- context [SnapCache._load_installed_snaps ?e (mkSt ?c ?tr)] =>
          destruct (Hinst c tr) as [H1 H2];
          destruct (SnapCache._load_installed_snaps e (mkSt c tr))
            as [[[]|?] ?]; simpl in *; [by rewrite H2|done]
      end.
    + intros line _ st'. unfold index_step, SnapCache.setitem, set_self, modify.
      destruct st' as [[m] tr'].
      by destruct (String.eqb (strip line) EmptyString).
  - match goal with
    | |- context [SnapCache._load_installed_snaps ?e (mkSt ?c ?tr)] =>
        destruct (Hinst c tr) as [H1 H2];
        destruct (SnapCache._load_installed_snaps e (mkSt c tr))
          as [[[]|?] ?]; simpl in *; [by rewrite H2|done]
    end.
Qed.

(** X16: what a constructed cache holds, for an environment that answers
    regardless of the history, with snapd in place and a list of installed
    snaps whose objects are complete.  The construction succeeds; a name is
    loaded exactly when an installed snap carries it, and the record is
    built from such an object; a name is a placeholder exactly when no
    installed snap carries it and it is the stripped, non-empty text of a
    line of the index file (if that file exists); any other name is no key
    at all.  A snap that is both in the index and installed is loaded: the
    installed snap overwrites the placeholder. *)
Theorem construction_contents files index daemon runner installed
    {O} (st : St O) :
  files "/usr/bin/snap" = true ->
  daemon "snaps" [] = Response installed ->
  Forall (fun i => exists snap, snap_of_info Latest i = inr snap) installed ->
  exists c,
    (SnapCache.new (static_env files index daemon runner) st).1 = Ret c /\
    forall n,
      match _snap_map c !! n with
      | Some (Some snap) =>
          exists i, i ∈ installed /\ snap_of_info Latest i = inr snap /\
                    _name snap = n
      | Some None =>
          ~ Exists (fun i => i !! "name" = Some n) installed /\
          files "/var/cache/snapd/names" = true /\
          n <> EmptyString /\ n ∈ strip <$> index
      | None =>
          ~ Exists (fun i => i !! "name" = Some n) installed /\
          (files "/var/cache/snapd/names" = true ->
           n ∈ strip <$> index -> n = EmptyString)
      end.
Proof.
  intros Hbin Hsnaps Hwf.
  eexists. split; [by apply new_static|]. intros n; simpl.
  destruct (foldl_installed_lookup installed
              (foldl index_step ∅
                 (if files "/var/cache/snapd/names" then index else [])) n)
    as [Hyes Hno].
  destruct (decide (Exists (fun i => i !! "name" = Some n) installed))
    as [Hex|Hex].
  - destruct (Hyes Hex Hwf) as (i & snap & Hi & Hsnap & Hname & ->). eauto.
  - rewrite (Hno Hex Hwf), foldl_index_lookup.
    destruct (files "/var/cache/snapd/names"); simpl.
    + case_bool_decide as Hidx.
      * destruct Hidx. done.
      * rewrite lookup_empty. split; [done|]. intros _ Hin.
        destruct (decide (n = EmptyString)); [done|]. by destruct Hidx.
    + rewrite bool_decide_eq_false_2
        by (intros [_ H]; by apply elem_of_nil in H).
      rewrite lookup_empty. split; [done|]. discriminate.
Qed.

Lemma construction_contents_witness :
  (fun _ : string => true) "/usr/bin/snap" = true /\
  daemon_foo "snaps" [] = Response [info_of foo_latest] /\
  Forall (fun i => exists snap, snap_of_info Latest i = inr snap)
         [info_of foo_latest] /\
  exists c,
    (SnapCache.new
       (static_env (fun _ => true) index_foo_bar daemon_foo
                   (fun _ => Exit0 EmptyString))
       (mkSt tt [])).1 = Ret c /\
    forall n,
      match _snap_map c !! n with
      | Some (Some snap) =>
          exists i, i ∈ [info_of foo_latest] /\
                    snap_of_info Latest i = inr snap /\ _name snap = n
      | Some None =>
          ~ Exists (fun i => i !! "name" = Some n) [info_of foo_latest] /\
          (fun _ : string => true) "/var/cache/snapd/names" = true /\
          n <> EmptyString /\ n ∈ strip <$> index_foo_bar
      | None =>
          ~ Exists (fun i => i !! "name" = Some n) [info_of foo_latest] /\
          ((fun _ : string => true) "/var/cache/snapd/names" = true ->
           n ∈ strip <$> index_foo_bar -> n = EmptyString)
      end.
Proof.
  split; [reflexivity|]. split; [reflexivity|].
  split; [repeat constructor; by eexists|].
  apply (construction_contents (fun _ => true) index_foo_bar daemon_foo
           (fun _ => Exit0 EmptyString) [info_of foo_latest] (mkSt tt []));
    [reflexivity|reflexivity|repeat constructor; by eexists].
Defined.

(** The cache of the witness, evaluated: ["foo"] is loaded although the
    index names it too, [" bar "] has become the placeholder ["bar"], and
    the blank line has left no key. *)
Example construction_foo_bar :
  (SnapCache.new
     (static_env (fun _ => true) index_foo_bar daemon_foo
                 (fun _ => Exit0 EmptyString))
     (mkSt tt [])) =
    (Ret (mkSnapCache (<["foo" := Some foo_latest]> (<["bar" := None]> ∅))),
     mkSt tt [IsFile "/usr/bin/snap"; IsFile "/usr/bin/snap";
              IsFile "/var/cache/snapd/names";
              ReadLines "/var/cache/snapd/names";
              Request "GET" "snaps" []]).
Proof. vm_compute. reflexivity. Qed.

(** ** The bare functions and their batches *)

Lemma wrap_loop_absent env channel classic snap_names :
  forall snaps st,
    _wrap_loop env Absent channel classic snap_names snaps st =
      _wrap_loop env Absent EmptyString false snap_names snaps st.
Proof.
  induction snap_names as [|s rest IH]; intros snaps st; simpl; [done|].
  unfold bind.
  change (_wrap_one env Absent channel classic s snaps st)
    with (_wrap_one env Absent EmptyString false s snaps st).
  destruct (_wrap_one env Absent EmptyString false s snaps st) as [[a|e] st'];
    [apply IH|done].
Qed.

(** X17: a batch that asks for [Absent] ignores the channel and the classic
    flag altogether, so that [add] with the state [Absent], given as the
    enum member or as the string ["absent"], is [remove]. *)
Theorem removal_ignores_arguments env snap_names channel classic
    (st : St _Cache) :
  _wrap_snap_operations env (names_of snap_names) Absent channel classic st =
    _wrap_snap_operations env (names_of snap_names) Absent EmptyString false st /\
  add env snap_names (inr Absent) channel classic st = remove env snap_names st /\
  add env snap_names (inl "absent") channel classic st = remove env snap_names st.
Proof.
  assert (Hwrap : forall l st',
    _wrap_snap_operations env l Absent channel classic st' =
      _wrap_snap_operations env l Absent EmptyString false st').
  { intros l st'. unfold _wrap_snap_operations, bind.
    by rewrite wrap_loop_absent. }
  split; [apply Hwrap|].
  assert (Hadd : add env snap_names (inr Absent) channel classic st =
                 remove env snap_names st).
  { unfold add, remove. rewrite !cache_init_eq.
    assert (Hbody : forall st',
      match names_of snap_names with
      | [] => raise (TypeError "Expected at least one snap to add, received zero!")
      | _ :: _ =>
          state <- ret Absent ;;
          _wrap_snap_operations env (names_of snap_names) state channel classic
      end st' =
      match names_of snap_names with
      | [] => raise (TypeError "Expected at least one snap to add, received zero!")
      | _ :: _ =>
          _wrap_snap_operations env (names_of snap_names) Absent EmptyString false
      end st').
    { intros st'. destruct (names_of snap_names) as [|n l] eqn:Hn; [done|].
      unfold bind at 1, ret at 1. apply Hwrap. }
    destruct (_cache (self st)); [apply Hbody|].
    destruct (SnapCache.new env st) as [[c|e] st']; [apply Hbody|done]. }
  split; [exact Hadd|exact Hadd].
Qed.

Lemma cache_init_idem env {A} (func : M (St _Cache) A) (st : St _Cache) :
  _cache_init env (_cache_init env func) st = _cache_init env func st.
Proof.
  rewrite (cache_init_eq env (_cache_init env func)).
  rewrite (cache_init_eq env func st).
  destruct (_cache (self st)) as [c|] eqn:Hc.
  - done.
  - destruct (SnapCache.new env st) as [[c|e] st']; [|done].
    by rewrite cache_init_eq.
Qed.

(** X18: the bare [ensure] is [add] for the states ["present"] and
    ["latest"], and [remove] for every other string: not only ["absent"]
    and ["available"], but any misspelt state removes the snaps. *)
Theorem ensure_dispatch env snap_names state channel classic
    (st : St _Cache) :
  ensure env snap_names state channel classic st =
    if String.eqb state "present" || String.eqb state "latest"
    then add env snap_names (inl state) channel classic st
    else remove env snap_names st.
Proof.
  unfold ensure.
  destruct (String.eqb_spec state "present") as [->|Hp]; simpl.
  - apply (cache_init_idem env).
  - destruct (String.eqb_spec state "latest") as [->|Hl]; simpl.
    + apply (cache_init_idem env).
    + apply (cache_init_idem env).
Qed.

Lemma outcomes_length env state channel classic snap_names :
  forall st,
    List.length (outcomes env state channel classic snap_names st) =
      List.length snap_names.
Proof.
  induction snap_names as [|s rest IH]; intros st; simpl; [done|].
  destruct (name_outcome env state channel classic s st) as [o st']; simpl.
  by rewrite IH.
Qed.

(** The loop on a prefix of names none of which lets an exception escape:
    the names are distributed over the two lists, in order, and the loop
    goes on with the rest. *)
Lemma wrap_loop_prefix env state channel classic l1 :
  forall st : St _Cache,
    forallb (fun o => negb (is_escaped o))
            (outcomes env state channel classic l1 st) = true ->
    exists st1, forall rest snaps,
      _wrap_loop env state channel classic (l1 ++ rest) snaps st =
        _wrap_loop env state channel classic rest
          ((snaps.1 ++ names_where is_succeeded l1
                         (outcomes env state channel classic l1 st))%list,
           (snaps.2 ++ names_where is_failed l1
                         (outcomes env state channel classic l1 st))%list)
          st1 /\
      outcomes env state channel classic (l1 ++ rest) st =
        (outcomes env state channel classic l1 st
           ++ outcomes env state channel classic rest st1)%list.
Proof.
  induction l1 as [|s l1 IH]; intros st Hesc; simpl in *.
  - exists st. intros rest snaps. rewrite !app_nil_r. by destruct snaps.
  - pose proof (wrap_one_outcome env state channel classic s) as Hone.
    destruct (name_outcome env state channel classic s st) as [o st'] eqn:Hs.
    simpl in Hesc. apply andb_true_iff in Hesc as [Ho Hesc].
    destruct (IH st' Hesc) as (st1 & Hrest).
    exists st1. intros rest snaps.
    unfold bind at 1. rewrite Hone, Hs.
    destruct o as [| |e]; [| |discriminate Ho]; simpl.
    + destruct (Hrest rest ((snaps.1 ++ [s])%list, snaps.2)) as [Hloop Hout].
      simpl in Hloop. rewrite <- app_assoc in Hloop.
      split; [exact Hloop|]. by rewrite Hout.
    + destruct (Hrest rest (snaps.1, (snaps.2 ++ [s])%list)) as [Hloop Hout].
      simpl in Hloop. rewrite <- app_assoc in Hloop.
      split; [exact Hloop|]. by rewrite Hout.
Qed.

Lemma outcomes_take env state channel classic l1 rest :
  forall st,
    take (List.length l1) (outcomes env state channel classic (l1 ++ rest) st)
      = outcomes env state channel classic l1 st.
Proof.
  induction l1 as [|s l1 IH]; intros st; simpl; [done|].
  destruct (name_outcome env state channel classic s st) as [o st']; simpl.
  by rewrite IH.
Qed.

Lemma names_where_all snap_names : forall outs,
  List.length outs = List.length snap_names ->
  forallb (fun o => negb (is_escaped o)) outs = true ->
  names_where is_failed snap_names outs = [] ->
  names_where is_succeeded snap_names outs = snap_names.
Proof.
  induction snap_names as [|n l IH]; intros [|o outs] Hlen Hesc Hfail;
    simpl in *; try done.
  apply andb_true_iff in Hesc as [Ho Hesc].
  destruct o; simpl in *; try done.
  f_equal. apply IH; [lia|done|done].
Qed.

(** X19: the result of a batch in which no exception escapes the loop.  If
    some name failed, one [SnapError] is raised whose message lists all
    failed names, and only those, in the order of the input, separated by
    a comma and a blank; the message says "install or refresh" also when
    the batch removes.  If no name failed, the result is the one record
    when one name was given, and the list of all records in the order of
    the input when there were more; on an empty list the function trips
    over [IndexError]. *)
Theorem batch_result env state channel classic snap_names (st : St _Cache) :
  forallb (fun o => negb (is_escaped o))
          (outcomes env state channel classic snap_names st) = true ->
  (_wrap_snap_operations env snap_names state channel classic st).1 =
    match names_where is_failed snap_names
            (outcomes env state channel classic snap_names st) with
    | (_ :: _) as failed =>
        Raise (SnapError [PyStr ("Failed to install or refresh snap(s): "
                                   ++ join ", " failed)])
    | [] =>
        match snap_names with
        | [] => Raise (IndexError "list index out of range")
        | [n] => Ret (OneSnap n)
        | _ => Ret (SnapList snap_names)
        end
    end.
Proof.
  intros Hesc.
  destruct (wrap_loop_prefix env state channel classic snap_names st Hesc)
    as (st1 & Hrest).
  destruct (Hrest [] ([], [])) as [Hloop _].
  rewrite app_nil_r in Hloop. simpl in Hloop.
  unfold _wrap_snap_operations, bind. rewrite Hloop. unfold ret; simpl.
  pose proof (names_where_all snap_names _
                (outcomes_length env state channel classic snap_names st)
                Hesc) as Hall.
  destruct (names_where is_failed snap_names _) as [|f failed]; simpl.
  - rewrite (Hall eq_refl).
    destruct snap_names as [|n [|n' l]]; reflexivity.
  - reflexivity.
Qed.

Lemma batch_result_witness :
  forallb (fun o => negb (is_escaped o))
          (outcomes env_b_fails Absent EmptyString false ["b"; "a"; "b"]
             (mkSt cache_a_b [])) = true /\
  (_wrap_snap_operations env_b_fails ["b"; "a"; "b"] Absent EmptyString false
     (mkSt cache_a_b [])).1 =
    match names_where is_failed ["b"; "a"; "b"]
            (outcomes env_b_fails Absent EmptyString false ["b"; "a"; "b"]
               (mkSt cache_a_b [])) with
    | (_ :: _) as failed =>
        Raise (SnapError [PyStr ("Failed to install or refresh snap(s): "
                                   ++ join ", " failed)])
    | [] => Ret (SnapList ["b"; "a"; "b"])
    end.
Proof.
  split; [vm_compute; reflexivity|].
  apply (batch_result env_b_fails Absent EmptyString false ["b"; "a"; "b"]
           (mkSt cache_a_b [])).
  vm_compute; reflexivity.
Defined.

(** The batch of the witness, evaluated. *)
Example batch_b_a_b :
  (_wrap_snap_operations env_b_fails ["b"; "a"; "b"] Absent EmptyString false
     (mkSt cache_a_b [])).1 =
    Raise (SnapError [PyStr "Failed to install or refresh snap(s): b, b"]).
Proof. vm_compute. reflexivity. Qed.

(** X20: an exception that the loop does not handle ends the batch on the
    spot.  When the first such exception comes up at a name, the batch
    raises it as it is; the names after it are not looked at, so the batch
    does exactly what it does without them; and the names that had failed
    before are not reported. *)
Theorem batch_escape_aborts env state channel classic l1 s l2 outs1 e
    (st : St _Cache) :
  outcomes env state channel classic (l1 ++ [s]) st
    = (outs1 ++ [Escaped e])%list ->
  forallb (fun o => negb (is_escaped o)) outs1 = true ->
  (_wrap_snap_operations env (l1 ++ s :: l2) state channel classic st).1
    = Raise e /\
  _wrap_snap_operations env (l1 ++ s :: l2) state channel classic st =
    _wrap_snap_operations env (l1 ++ [s]) state channel classic st.
Proof.
  intros Hout Hesc.
  assert (Hlen : List.length outs1 = List.length l1).
  { pose proof (outcomes_length env state channel classic (l1 ++ [s]) st)
      as Hlen.
    rewrite Hout, !length_app in Hlen. simpl in Hlen. lia. }
  assert (Hl1 : outcomes env state channel classic l1 st = outs1).
  { rewrite <- (outcomes_take env state channel classic l1 [s] st), Hout.
    rewrite <- Hlen. apply take_app_length. }
  rewrite <- Hl1 in Hesc.
  destruct (wrap_loop_prefix env state channel classic l1 st Hesc)
    as (st1 & Hrest).
  destruct (Hrest [s] ([], [])) as [_ Hout1].
  rewrite Hout, Hl1 in Hout1. apply app_inv_head in Hout1.
  simpl in Hout1.
  destruct (name_outcome env state channel classic s st1) as [o st2] eqn:Hs.
  injection Hout1 as <-.
  assert (Hany : forall rest,
    _wrap_snap_operations env (l1 ++ s :: rest) state channel classic st =
      (Raise e, st2)).
  { intros rest. destruct (Hrest (s :: rest) ([], [])) as [Hloop _].
    unfold _wrap_snap_operations, bind at 1. rewrite Hloop. simpl.
    unfold bind at 1. by rewrite wrap_one_outcome, Hs. }
  rewrite (Hany l2), (Hany []). done.
Qed.

Lemma batch_escape_aborts_witness :
  outcomes (bare_env (fun _ => false)) Absent EmptyString false
           (["a"] ++ ["zzz"]) (mkSt cache_a_b [])
    = ([Failed] ++ [Escaped (IndexError "list index out of range")])%list /\
  forallb (fun o => negb (is_escaped o)) [Failed] = true /\
  (_wrap_snap_operations (bare_env (fun _ => false)) (["a"] ++ "zzz" :: ["b"])
     Absent EmptyString false (mkSt cache_a_b [])).1
    = Raise (IndexError "list index out of range") /\
  _wrap_snap_operations (bare_env (fun _ => false)) (["a"] ++ "zzz" :: ["b"])
    Absent EmptyString false (mkSt cache_a_b []) =
    _wrap_snap_operations (bare_env (fun _ => false)) (["a"] ++ ["zzz"])
      Absent EmptyString false (mkSt cache_a_b []).
Proof.
  split; [vm_compute; reflexivity|]. split; [reflexivity|].
  apply (batch_escape_aborts (bare_env (fun _ => false)) Absent EmptyString
           false ["a"] "zzz" ["b"] [Failed]
           (IndexError "list index out of range") (mkSt cache_a_b []));
    [vm_compute; reflexivity|reflexivity].
Defined.







(** ** [install_local] with its four parameters *)



(** X23: when the install command succeeds but its output cannot be taken
    apart, the function raises although the snap is installed: an empty
    output gives [IndexError], and a first line without a blank gives
    [ValueError].  The command is all that has happened then; no cache is
    built. *)
Theorem install_local_unparsable_output env {O} (st : St O) (self_ : pyval)
    (path : string) (classic dangerous : bool) text :
  check_output env (trace st)
    ["snap"; "install"; path;
     if classic then "--classic" else EmptyString;
     if dangerous then "--dangerous" else EmptyString] = Exit0 text ->
  match first_line text with
  | None => True
  | Some line => (split_space_1 line).2 = None
  end ->
  install_local env self_ (PyStr path) (PyBool classic) (PyBool dangerous) st =
    (Raise (match first_line text with
            | None => IndexError "list index out of range"
            | Some _ =>
                ValueError "not enough values to unpack (expected 2, got 1)"
            end),
     mkSt (self st)
          (trace st ++
           [CheckOutput
              ["snap"; "install"; path;
               if classic then "--classic" else EmptyString;
               if dangerous then "--dangerous" else EmptyString]])).
Proof.
  intros Hrun Hparse.
  unfold install_local, subprocess_check_output, bind, on_trace; simpl.
  rewrite Hrun.
  destruct (first_line text) as [line|]; [|reflexivity].
  destruct (split_space_1 line) as [name [rest|]]; [discriminate Hparse|].
  reflexivity.
Qed.

Lemma install_local_unparsable_output_witness :
  check_output (bare_env (fun _ => true)) (trace (mkSt tt []))
    ["snap"; "install"; "./foo.snap";
     if true then "--classic" else EmptyString;
     if false then "--dangerous" else EmptyString] = Exit0 "done" /\
  match first_line "done" with
  | None => True
  | Some line => (split_space_1 line).2 = None
  end /\
  install_local (bare_env (fun _ => true)) PyNone (PyStr "./foo.snap")
    (PyBool true) (PyBool false) (mkSt tt []) =
    (Raise (match first_line "done" with
            | None => IndexError "list index out of range"
            | Some _ =>
                ValueError "not enough values to unpack (expected 2, got 1)"
            end),
     mkSt (self (mkSt tt []))
          (trace (mkSt tt []) ++
           [CheckOutput
              ["snap"; "install"; "./foo.snap";
               if true then "--classic" else EmptyString;
               if false then "--dangerous" else EmptyString]])).
Proof.
  split; [reflexivity|]. split; [reflexivity|].
  apply (install_local_unparsable_output (bare_env (fun _ => true))
           (mkSt tt []) PyNone "./foo.snap" true false "done");
    reflexivity.
Defined.
